(** * compressure: the reversible slice sequencer, the timeline generator,
      the persistence cache and the encoder configuration of
      [compressure/main.py], embedded in Rocq.

    Conventions of the embedding

    - A Python method that mutates [self] is a function from the object's
      state to a result and the state it leaves behind.  An exception keeps
      the mutations made before it was raised, exactly as in Python.
    - Python's [int] is [Z].  Python's [float] is an IEEE 754 binary64 value,
      a [spec_float] with its operations at precision 53 and maximal exponent
      1024; [int / int], [float * int], [float + float] and [int(x)] round,
      overflow and fail as CPython's do.  The rational [numerator /
      denominator] that the sequencer stores is also given exactly, in [Q].
    - [collections.deque.rotate] takes a C [ssize_t] of 64 bits.
    - An element of a numpy [float64] array is nan, an infinity or a finite
      value.  A finite value is given by the real number it stands for: the
      rounding of [np.linspace], [np.sin] and the product is not modelled.
      The cast to [int64] is that of x86-64.
    - A [dict] is a [gmap]; a [deque] and a [list] are a [list]. *)

From Stdlib Require Import ZArith QArith Reals Lra Lia SpecFloat.
From stdpp Require Import gmap strings list.

Local Open Scope Z_scope.

(** ** Exceptions and results *)

(** The exceptions raised by [main.py] and by the interpreter on its behalf. *)
Inductive exn : Type :=
| AttributeError (attr : string)
| ZeroDivisionError
| IndexError
| ValueError
| OverflowError
| NotImplementedError (category : string)
| EncoderSelectionError (encoder : string)
| MalformedConfigurationError (n : nat)
| UnrecognizedEncoderConfigError (encoder key : string)
| ExternalToolError (tool : string)
| PersistenceWriteError.

Inductive result (A : Type) : Type :=
| Ok (a : A)
| Raise (e : exn).
Arguments Ok {A} a.
Arguments Raise {A} e.

(** A computation over a mutable object of type [S]. *)
Definition py (S A : Type) : Type := S -> result A * S.

Definition ret {S A} (a : A) : py S A := fun s => (Ok a, s).
Definition raise {S A} (e : exn) : py S A := fun s => (Raise e, s).
Definition bind {S A B} (m : py S A) (k : A -> py S B) : py S B :=
  fun s => match m s with
           | (Ok a, s') => k a s'
           | (Raise e, s') => (Raise e, s')
           end.
Definition get {S} : py S S := fun s => (Ok s, s).
Definition modify {S} (f : S -> S) : py S unit := fun s => (Ok tt, f s).

(** The outcome of an expression that does not touch the object. *)
Definition lift {S A} (r : result A) : py S A := fun s => (r, s).

Declare Scope py_scope.
Delimit Scope py_scope with py.
Notation "x <- c1 ;; c2" := (bind c1 (fun x => c2))
  (at level 100, c1 at next level, right associativity) : py_scope.
Notation "c1 ;;; c2" := (bind c1 (fun _ => c2))
  (at level 100, right associativity) : py_scope.

(** ** Python numbers *)

(** A Python [float]: a binary64 value. *)
Abbreviation pyfloat := spec_float.

Definition float_mul (x y : pyfloat) : pyfloat := SFmul 53 1024 x y.
Definition float_add (x y : pyfloat) : pyfloat := SFadd 53 1024 x y.

(** [1.0] and [-1.0]. *)
Definition float_one : pyfloat := S754_finite false 4503599627370496 (-52).
Definition float_minus_one : pyfloat := S754_finite true 4503599627370496 (-52).

(** [x >= 0] and [x > 0] on a float; both are false on [nan]. *)
Definition ge0 (x : pyfloat) : bool := SFleb (S754_zero false) x.
Definition gt0 (x : pyfloat) : bool := SFltb (S754_zero false) x.

(** An integer as an exact operand of a correctly rounded operation. *)
Definition exact_int (z : Z) : pyfloat :=
  match z with
  | Z0 => S754_zero false
  | Zpos p => S754_finite false p 0
  | Zneg p => S754_finite true p 0
  end.

(** The float that [n / d] gives when [n] is the sign of [delta] times a
    non-zero [d]: [-1.0], [1.0], or the zero signed as [d]. *)
Definition sign_float (delta d : Z) : pyfloat :=
  if delta <? 0 then float_minus_one
  else if 0 <? delta then float_one
  else S754_zero (d <? 0).

(** [float(z)] for an [int]: the nearest binary64 value, ties to even;
    [OverflowError] when that value would be infinite. *)
Definition float_of_int (z : Z) : result pyfloat :=
  match binary_normalize 53 1024 z 0 false with
  | S754_infinity _ => Raise OverflowError
  | f => Ok f
  end.

(** [n / d] for two [int]s: the correctly rounded quotient, of the sign of
    the operands also when it is zero; [ZeroDivisionError] for [d == 0] and
    [OverflowError] when the rounded quotient would be infinite. *)
Definition int_truediv (n d : Z) : result pyfloat :=
  if d =? 0 then Raise ZeroDivisionError
  else
    match SFdiv 53 1024 (exact_int n) (exact_int d) with
    | S754_infinity _ => Raise OverflowError
    | f => Ok f
    end.

(** A number: an [int] or a [float]. *)
Inductive number : Type :=
| Int (z : Z)
| Float (f : pyfloat).

(** [x * y]: exact on two [int]s; an [int] meeting a [float] is converted
    first. *)
Definition number_mul (x y : number) : result number :=
  match x, y with
  | Int a, Int b => Ok (Int (a * b))
  | Float f, Int b =>
      match float_of_int b with
      | Ok g => Ok (Float (float_mul f g))
      | Raise e => Raise e
      end
  | Int a, Float g =>
      match float_of_int a with
      | Ok f => Ok (Float (float_mul f g))
      | Raise e => Raise e
      end
  | Float f, Float g => Ok (Float (float_mul f g))
  end.

(** [int(f)] on a float: truncation toward zero; [ValueError] on [nan] and
    [OverflowError] on an infinity. *)
Definition float_trunc (f : pyfloat) : result Z :=
  match f with
  | S754_nan => Raise ValueError
  | S754_infinity _ => Raise OverflowError
  | S754_zero _ => Ok 0
  | S754_finite s m e =>
      let magnitude :=
        match e with
        | Z0 => Zpos m
        | Zpos _ => Zpos m * 2 ^ e
        | Zneg _ => Zpos m / 2 ^ (- e)
        end in
      Ok (if s then - magnitude else magnitude)
  end.

(** [int(x)] *)
Definition py_int (x : number) : result Z :=
  match x with
  | Int z => Ok z
  | Float f => float_trunc f
  end.

(** [int(x * d)] for an [int] [d]. *)
Definition int_of_product (x : number) (d : Z) : result Z :=
  match number_mul x (Int d) with
  | Ok p => py_int p
  | Raise e => Raise e
  end.

(** ** [collections.deque] *)

(** The effect of [d.rotate(n)]: [n] steps to the right, to the left when
    [n] is negative; nothing happens on an empty deque. *)
Definition rotate {A} (n : Z) (d : list A) : list A :=
  match d with
  | [] => []
  | _ :: _ =>
      let k := Z.to_nat ((- n) mod Z.of_nat (length d)) in
      drop k d ++ take k d
  end.

(** Whether an [int] converts to a C [ssize_t] of 64 bits. *)
Definition fits_ssize_t (n : Z) : bool :=
  (- 2 ^ 63 <=? n) && (n <? 2 ^ 63).

(** [d.rotate(n)]: the argument is converted to a C [ssize_t] first, and
    [OverflowError] is raised when it does not fit, on an empty deque too. *)
Definition deque_rotate {A} (n : Z) (d : list A) : result (list A) :=
  if fits_ssize_t n then Ok (rotate n d) else Raise OverflowError.

(** [d[0]]. *)
Definition head0 {S A} (d : list A) : py S A :=
  match d with
  | [] => raise IndexError
  | x :: _ => ret x
  end.

(** A slice is identified by the path of its file. *)
Definition Slice : Type := string.

(** ** [VideoSlicer], as far as [main.py] uses it: the three arguments of
    its constructor and the attribute [slices] that the sequencer reads *)
Module VideoSlicer.
Record t : Type := mk {
  fpath_in : string;
  superframe_size : Z;
  workdir : string;
  slices : list Slice
}.
End VideoSlicer.

(** ** [class VideoSliceBufferReversible] *)
Module VideoSliceBufferReversible.

(** The instance attributes.  [__init__] assigns the first six.  The
    seventh, [superframe_size], is read by [step] and [accelerate] but no
    method of the class assigns it: it is [None] while the instance has no
    such attribute, and [Some n] once a client has assigned it. *)
Record t : Type := mk {
  buffer_forward : list Slice;
  buffer_backward : list Slice;
  forward : bool;
  index : Z;
  _velocity_numerator : Z;
  _velocity_denominator : Z;
  superframe_size : option Z
}.

Definition set_forward (b : bool) (s : t) : t :=
  mk (buffer_forward s) (buffer_backward s) b (index s)
     (_velocity_numerator s) (_velocity_denominator s) (superframe_size s).
Definition set_numerator (n : Z) (s : t) : t :=
  mk (buffer_forward s) (buffer_backward s) (forward s) (index s)
     n (_velocity_denominator s) (superframe_size s).
Definition set_index (i : Z) (s : t) : t :=
  mk (buffer_forward s) (buffer_backward s) (forward s) i
     (_velocity_numerator s) (_velocity_denominator s) (superframe_size s).
Definition set_buffer_forward (f : list Slice) (s : t) : t :=
  mk f (buffer_backward s) (forward s) (index s)
     (_velocity_numerator s) (_velocity_denominator s) (superframe_size s).
Definition set_buffer_backward (b : list Slice) (s : t) : t :=
  mk (buffer_forward s) b (forward s) (index s)
     (_velocity_numerator s) (_velocity_denominator s) (superframe_size s).

(** [__init__(self, slicer_forward, slicer_backward)] *)
Definition init (slicer_forward slicer_backward : VideoSlicer.t) : result t :=
  Ok {| buffer_forward := VideoSlicer.slices slicer_forward;
        buffer_backward := rev (VideoSlicer.slices slicer_backward);
        forward := true;
        index := 0;
        _velocity_numerator := VideoSlicer.superframe_size slicer_forward;
        _velocity_denominator := VideoSlicer.superframe_size slicer_forward;
        superframe_size := None |}.

(** [self.superframe_size] *)
Definition get_superframe_size : py t Z :=
  fun s => match superframe_size s with
           | Some n => (Ok n, s)
           | None => (Raise (AttributeError "superframe_size"), s)
           end.

(** The property [state]. *)
Definition state : py t Slice :=
  fun s => if forward s then head0 (buffer_forward s) s
           else head0 (buffer_backward s) s.

(** The property [velocity]: [numerator / denominator]. *)
Definition velocity : py t pyfloat :=
  fun s => (int_truediv (_velocity_numerator s) (_velocity_denominator s), s).

(** The setter of [velocity]: the direction first, from the velocity and the
    direction found, then the numerator [int(velocity * denominator)]. *)
Definition set_velocity (v : number) : py t unit :=
  (fwd <- (fun s => (Ok (forward s), s)) ;;
   old <- velocity ;;
   modify (set_forward (if fwd then ge0 old else gt0 old)) ;;;
   s <- get ;;
   n <- lift (int_of_product v (_velocity_denominator s)) ;;
   modify (set_numerator n))%py.

(** The head that [step] returns. *)
Definition visible_head : py t Slice :=
  (fwd <- (fun s => (Ok (forward s), s)) ;;
   v <- velocity ;;
   s <- get ;;
   if fwd then
     (if ge0 v then head0 (buffer_forward s) else head0 (buffer_backward s))
   else
     (if gt0 v then head0 (buffer_forward s) else head0 (buffer_backward s)))%py.

(** The first half of [step]: the displacement [n_moves], with the velocity
    set to its sign when a target is given. *)
Definition displacement (to : option Z) : py t Z :=
  match to with
  | Some target =>
      (s <- get ;;
       let n_moves := target - index s in
       (if n_moves <? 0 then set_velocity (Int (-1))
        else if 0 <? n_moves then set_velocity (Int 1)
        else set_velocity (Int 0)) ;;;
       ret n_moves)%py
  | None =>
      (sf <- get_superframe_size ;;
       v <- velocity ;;
       p <- lift (number_mul (Int sf) (Float v)) ;;
       lift (py_int p))%py
  end.

(** The second half of [step]: both deques rotated by [- n_moves], the
    cursor advanced, the head read. *)
Definition move (n_moves : Z) : py t Slice :=
  (s <- get ;;
   rotated <- lift (deque_rotate (- n_moves) (buffer_forward s)) ;;
   modify (set_buffer_forward rotated) ;;;
   s <- get ;;
   rotated <- lift (deque_rotate (- n_moves) (buffer_backward s)) ;;
   modify (set_buffer_backward rotated) ;;;
   modify (fun s => set_index (index s + n_moves) s) ;;;
   visible_head)%py.

(** [step(self, to=None)] *)
Definition step (to : option Z) : py t Slice :=
  (n_moves <- displacement to ;; move n_moves)%py.

(** [accelerate(self, degree=1)] *)
Definition accelerate (degree : Z) : py t Slice :=
  (v <- velocity ;;
   sf <- get_superframe_size ;;
   increment <- lift (int_truediv degree sf) ;;
   set_velocity (Float (float_add v increment)) ;;;
   step None)%py.

(** [__len__] *)
Definition len (s : t) : nat := length (buffer_forward s).

(** The rational value of the velocity that [s] stores. *)
Definition velocity_of (s : t) : Q :=
  (inject_Z (_velocity_numerator s) / inject_Z (_velocity_denominator s))%Q.

(** The direction that the setter of [velocity] computes from the direction
    it finds and the velocity it reads. *)
Definition lagged_direction (fwd : bool) (old : pyfloat) : bool :=
  if fwd then ge0 old else gt0 old.

(** The state in which [step(to=j)] leaves the velocity and the direction,
    [old] being the velocity it read. *)
Definition retargeted (old : pyfloat) (j : Z) (s : t) : t :=
  {| buffer_forward := buffer_forward s;
     buffer_backward := buffer_backward s;
     forward := lagged_direction (forward s) old;
     index := index s;
     _velocity_numerator := Z.sgn (j - index s) * _velocity_denominator s;
     _velocity_denominator := _velocity_denominator s;
     superframe_size := superframe_size s |}.

(** The state that a complete [step(to=j)] leaves behind. *)
Definition stepped_to (old : pyfloat) (j : Z) (s : t) : t :=
  let delta := j - index s in
  {| buffer_forward := rotate (- delta) (buffer_forward s);
     buffer_backward := rotate (- delta) (buffer_backward s);
     forward := lagged_direction (forward s) old;
     index := j;
     _velocity_numerator := Z.sgn delta * _velocity_denominator s;
     _velocity_denominator := _velocity_denominator s;
     superframe_size := superframe_size s |}.

(** What no method of the class changes: the slices that each deque holds,
    the denominator of the velocity and the presence of [superframe_size]. *)
Definition frame (s s' : t) : Prop :=
  buffer_forward s' ≡ₚ buffer_forward s /\
  buffer_backward s' ≡ₚ buffer_backward s /\
  _velocity_denominator s' = _velocity_denominator s /\
  superframe_size s' = superframe_size s.

End VideoSliceBufferReversible.

(** ** [generate_timeline_function] *)

(** An element of a numpy [float64] array: a finite value, given by the real
    number it stands for, an infinity or nan. *)
Inductive float64 : Type :=
| Finite (x : R)
| Infinite (negative : bool)
| NaN.

(** The element that a Python [float] becomes in an array. *)
Definition float64_of_float (f : pyfloat) : float64 :=
  match f with
  | S754_zero _ => Finite 0
  | S754_finite false m e => Finite (IZR (Z.pos m) * powerRZ 2 e)
  | S754_finite true m e => Finite (IZR (Z.neg m) * powerRZ 2 e)
  | S754_infinity s => Infinite s
  | S754_nan => NaN
  end.

(** [2 * np.pi], the float [6.283185307179586]. *)
Definition two_pi : pyfloat := S754_finite false 7074237752028440 (-50).

(** [np.linspace(start, stop, num)] for a finite [start]: a negative [num] is
    refused; otherwise [num] samples [start + i * step] with
    [step = (stop - start) / (num - 1)], evenly spaced from [start] to a
    finite [stop].  With a [stop] that is infinite or nan the step is [stop]
    too, so the first sample is [0 * stop], which is nan, and the others are
    [stop]. *)
Definition linspace (start : R) (stop : float64) (num : Z)
    : result (list float64) :=
  if num <? 0 then Raise ValueError
  else
    let n := Z.to_nat num in
    match stop with
    | Finite b =>
        let step := ((b - start) / INR (n - 1)%nat)%R in
        Ok (map (fun i : nat => Finite (start + INR i * step)) (seq 0 n))
    | _ =>
        Ok (map (fun i : nat => match i with O => NaN | S _ => stop end)
                (seq 0 n))
    end.

(** [np.sin] on one element. *)
Definition np_sin (t : float64) : float64 :=
  match t with
  | Finite x => Finite (sin x)
  | _ => NaN
  end.

(** [x * c] on one element, for the Python [int] [c]. *)
Definition times_int (c : Z) (x : float64) : float64 :=
  match x with
  | Finite x => Finite (x * IZR c)
  | Infinite s => if c =? 0 then NaN else Infinite (xorb s (c <? 0))
  | NaN => NaN
  end.

(** [locations[locations < 0] = -locations[locations < 0]]: nan compares
    false and stays. *)
Definition mirror_negative (locations : list float64) : list float64 :=
  map (fun x : float64 =>
         match x with
         | Finite x => if Rlt_dec x 0 then Finite (- x) else Finite x
         | Infinite _ => Infinite false
         | NaN => NaN
         end) locations.

(** The integer obtained from a real by dropping its fractional part. *)
Definition truncate (x : R) : Z :=
  if Rle_dec 0 x then Int_part x else - Int_part (- x).

(** [x.astype(int)] on one element, the cast of a [float64] to [int64]: the
    fractional part is dropped; a value outside [int64], an infinity and nan
    give [-2^63], as the conversion instruction of x86-64 does. *)
Definition astype_int (x : float64) : Z :=
  match x with
  | Finite x =>
      let z := truncate x in
      if (- 2 ^ 63 <=? z) && (z <? 2 ^ 63) then z else - 2 ^ 63
  | _ => - 2 ^ 63
  end.

(** [generate_timeline_function(superframe_size, len_lvb, n_superframes,
    category, frequency)], for a [frequency] that is a Python [float], as
    [main] passes it. *)
Definition generate_timeline_function
    (superframe_size len_lvb n_superframes : Z) (category : string)
    (frequency : pyfloat) : result (list Z) :=
  if String.eqb category "sinusoid" then
    match linspace 0 (float64_of_float (float_mul two_pi frequency))
            n_superframes with
    | Raise e => Raise e
    | Ok ts =>
        let locations := map (fun t => times_int (len_lvb - 1) (np_sin t)) ts in
        Ok (map astype_int (mirror_negative locations))
    end
  else if String.eqb category "compound-sinusoid" then
    match linspace 0 (float64_of_float (float_mul two_pi frequency))
            n_superframes with
    | Raise e => Raise e
    | Ok ts =>
        let locations := map (fun t => times_int len_lvb (np_sin t)) ts in
        Ok (map astype_int (mirror_negative locations))
    end
  else Raise (NotImplementedError category).

(** ** [construct_encoder_config] *)

(** The values held by an option mapping. *)
Inductive pyvalue : Type :=
| PyNone
| PyInt (z : Z)
| PyStr (s : string).

(** [VideoCompressionDefaults.encoder_config_options]: one dictionary object
    per encoder, shared by every reader.  The table itself is declared in
    [compressure.compression]; its content is a parameter of what follows. *)
Abbreviation EncoderConfigOptions := (gmap string (gmap string pyvalue)).

(** A reference to the dictionary object that the table holds for an
    encoder.  What it denotes is read from the table at the time of use. *)
Inductive dict_ref : Type :=
| EncoderConfigRef (encoder : string).

Definition deref (r : dict_ref) (options : EncoderConfigOptions)
    : option (gmap string pyvalue) :=
  match r with EncoderConfigRef encoder => options !! encoder end.

(** [encoder_config.get(key) is None] *)
Definition get_is_None (encoder_config : gmap string pyvalue) (key : string) : bool :=
  match encoder_config !! key with
  | None | Some PyNone => true
  | Some _ => false
  end.

(** The loop [for i in range(0, len(user_specified_config), 2)] on the
    remaining items, acting on the dictionary object [encoder_config]; [n] is
    [len(user_specified_config)]. *)
Fixpoint apply_user_config (encoder : string) (n : nat)
    (user_specified_config : list string) : py (gmap string pyvalue) unit :=
  match user_specified_config with
  | [] => ret tt
  | [_] => raise (MalformedConfigurationError n)
  | key :: value :: rest =>
      fun encoder_config =>
        if get_is_None encoder_config key then
          (Raise (UnrecognizedEncoderConfigError encoder key), encoder_config)
        else
          apply_user_config encoder n rest (<[key := PyStr value]> encoder_config)
  end.

(** [construct_encoder_config(encoder, user_specified_config)].  The loop
    runs on the dictionary object that the table holds for [encoder], so what
    it has written is in the table whether the call returns or raises; the
    value returned is a reference to that object. *)
Definition construct_encoder_config (encoder : string)
    (user_specified_config : list string) : py EncoderConfigOptions dict_ref :=
  fun options =>
    match options !! encoder with
    | None => (Raise (EncoderSelectionError encoder), options)
    | Some encoder_config =>
        match apply_user_config encoder (length user_specified_config)
                user_specified_config encoder_config with
        | (Ok _, written) =>
            (Ok (EncoderConfigRef encoder), <[encoder := written]> options)
        | (Raise e, written) =>
            (Raise e, <[encoder := written]> options)
        end
    end.

(** The key/value pairs of a configuration list, and the mapping that
    writing them in order into [encoder_config] produces. *)
Fixpoint config_pairs (user_specified_config : list string) : list (string * string) :=
  match user_specified_config with
  | key :: value :: rest => (key, value) :: config_pairs rest
  | _ => []
  end.

Definition write_pairs (pairs : list (string * string))
    (encoder_config : gmap string pyvalue) : gmap string pyvalue :=
  foldl (fun m kv => <[kv.1 := PyStr kv.2]> m) encoder_config pairs.

(** ** [SingleVideoCompression], as far as [main.py] uses it: the arguments
    of its constructor *)
Module SingleVideoCompression.
Record t : Type := mk {
  fpath_in : string;
  workdir : string;
  gop_size : Z;
  encoder : string;
  encoder_config : gmap string pyvalue
}.
End SingleVideoCompression.

(** ** The collaborators of [CompressureSystem]

    What [main.py] imports from [compressure.compression],
    [compressure.valve], [os] and [pathlib] and only calls: parameters of the
    model.  The two producers are given by their outcome on a
    configuration. *)
Record Collaborators : Type := {
  (** the attributes [fpath_out] and [human_readable_name] of a compressor *)
  fpath_out : SingleVideoCompression.t -> string;
  human_readable_name : SingleVideoCompression.t -> string;
  (** [workdir_base / Path(name).stem] *)
  path_under_stem : string -> string -> string;
  (** the directories that [os.makedirs(path, exist_ok=True)] leaves in
      existence: the path and every parent of it *)
  path_and_parents : string -> gset string;
  (** the attribute [slices] of a [VideoSlicer] just constructed from a
      path, a superframe size and a working directory *)
  constructed_slices : string -> Z -> string -> list Slice;
  (** the outcome of [compressor.transcode_video()] *)
  transcode_video : SingleVideoCompression.t -> result string;
  (** the outcome of [slicer.slice_video()] *)
  slice_video : VideoSlicer.t -> result (list Slice);
  (** the fingerprints of the two kinds of configuration *)
  fingerprint_compression : SingleVideoCompression.t -> string;
  fingerprint_slices : SingleVideoCompression.t -> VideoSlicer.t -> string;
  (** whether the write of the manifest succeeds at a given attempt *)
  manifest_write_succeeds : nat -> bool
}.

(** ** [CompressurePersistence] *)
Module CompressurePersistence.

(** Modelled from the spec: [CompressurePersistence] lives in
    [compressure.persistence], which is not part of the sources at hand.  An
    artifact record holds a fingerprint, an output path and, for a slice set,
    the list of slice files. *)
Record ArtifactRecord : Type := mkRecord {
  fingerprint : string;
  record_fpath_out : string;
  slice_files : list Slice
}.

(** Modelled from the spec: the manifest of [CompressurePersistence], a
    mapping from fingerprint to artifact record for each of the two kinds of
    artifact, with the number of writes of the manifest attempted so far. *)
Record t : Type := mk {
  compressions : gmap string ArtifactRecord;
  slice_sets : gmap string ArtifactRecord;
  write_attempts : nat
}.

(** Modelled from the spec: the lookup of [CompressurePersistence], which
    returns the record of a fingerprint or its absence. *)
Definition lookup_compression (fp : string) (p : t) : option ArtifactRecord :=
  compressions p !! fp.
Definition lookup_slices (fp : string) (p : t) : option ArtifactRecord :=
  slice_sets p !! fp.

(** Modelled from the spec: the append of [CompressurePersistence], which
    adds the record and writes the manifest through; when the write fails it
    raises and the manifest in memory is as before. *)
Definition append_compression (E : Collaborators) (r : ArtifactRecord) : py t unit :=
  fun p =>
    if manifest_write_succeeds E (write_attempts p) then
      (Ok tt, mk (<[fingerprint r := r]> (compressions p)) (slice_sets p)
                 (S (write_attempts p)))
    else
      (Raise PersistenceWriteError,
       mk (compressions p) (slice_sets p) (S (write_attempts p))).
Definition append_slices (E : Collaborators) (r : ArtifactRecord) : py t unit :=
  fun p =>
    if manifest_write_succeeds E (write_attempts p) then
      (Ok tt, mk (compressions p) (<[fingerprint r := r]> (slice_sets p))
                 (S (write_attempts p)))
    else
      (Raise PersistenceWriteError,
       mk (compressions p) (slice_sets p) (S (write_attempts p))).

End CompressurePersistence.

(** ** [class CompressureSystem] *)
Module CompressureSystem.

(** The system object ([persistence], [verbosity]) together with the part of
    its environment that its methods act on: the directories in existence and
    the invocations of the two producers, in order.  Printing and logging
    are left out, and the file system is taken to accept every directory. *)
Record t : Type := mk {
  persistence : CompressurePersistence.t;
  verbosity : Z;
  directories : gset string;
  transcode_calls : list SingleVideoCompression.t;
  slice_calls : list VideoSlicer.t
}.

Definition set_persistence (p : CompressurePersistence.t) (w : t) : t :=
  mk p (verbosity w) (directories w) (transcode_calls w) (slice_calls w).

(** A method of [self.persistence] run on the system. *)
Definition on_persistence {A} (m : py CompressurePersistence.t A) : py t A :=
  fun w => let (r, p) := m (persistence w) in (r, set_persistence p w).

(** [os.makedirs(workdir, exist_ok=True)] *)
Definition makedirs (E : Collaborators) (workdir : string) : py t unit :=
  modify (fun w => mk (persistence w) (verbosity w)
                     (path_and_parents E workdir ∪ directories w)
                     (transcode_calls w) (slice_calls w)).

(** [compressor.transcode_video()]: the call is made, then succeeds or
    fails. *)
Definition call_transcode_video (E : Collaborators)
    (compressor : SingleVideoCompression.t) : py t string :=
  fun w =>
    (transcode_video E compressor,
     mk (persistence w) (verbosity w) (directories w)
        (transcode_calls w ++ [compressor]) (slice_calls w)).

(** [slicer.slice_video()] *)
Definition call_slice_video (E : Collaborators) (slicer : VideoSlicer.t)
    : py t (list Slice) :=
  fun w =>
    (slice_video E slicer,
     mk (persistence w) (verbosity w) (directories w)
        (transcode_calls w) (slice_calls w ++ [slicer])).

(** Modelled from the spec: [persistence.get_compression(compressor)] and
    [persistence.add_compression(compressor)] of the absent
    [CompressurePersistence]: lookup and append under the fingerprint of the
    compressor's configuration. *)
Definition get_compression (E : Collaborators)
    (compressor : SingleVideoCompression.t)
    : py t (option CompressurePersistence.ArtifactRecord) :=
  fun w => (Ok (CompressurePersistence.lookup_compression
                  (fingerprint_compression E compressor) (persistence w)), w).
Definition compression_record (E : Collaborators)
    (compressor : SingleVideoCompression.t) : CompressurePersistence.ArtifactRecord :=
  CompressurePersistence.mkRecord
    (fingerprint_compression E compressor) (fpath_out E compressor) [].
Definition add_compression (E : Collaborators)
    (compressor : SingleVideoCompression.t) : py t unit :=
  on_persistence
    (CompressurePersistence.append_compression E (compression_record E compressor)).

(** Modelled from the spec: [persistence.get_slices(compressor, slicer)] and
    [persistence.add_slices(compressor, slicer)] of the absent
    [CompressurePersistence]. *)
Definition get_slices (E : Collaborators)
    (compressor : SingleVideoCompression.t) (slicer : VideoSlicer.t)
    : py t (option CompressurePersistence.ArtifactRecord) :=
  fun w => (Ok (CompressurePersistence.lookup_slices
                  (fingerprint_slices E compressor slicer) (persistence w)), w).
Definition slices_record (E : Collaborators)
    (compressor : SingleVideoCompression.t) (slicer : VideoSlicer.t)
    (produced : list Slice) : CompressurePersistence.ArtifactRecord :=
  CompressurePersistence.mkRecord
    (fingerprint_slices E compressor slicer) (VideoSlicer.workdir slicer) produced.
Definition add_slices (E : Collaborators)
    (compressor : SingleVideoCompression.t) (slicer : VideoSlicer.t)
    (produced : list Slice) : py t unit :=
  on_persistence
    (CompressurePersistence.append_slices E (slices_record E compressor slicer produced)).

(** [compress(self, fpath_in, gop_size, encoder, encoder_config, workdir)] *)
Definition compress (E : Collaborators) (fpath_in : string) (gop_size : Z)
    (encoder : string) (encoder_config : gmap string pyvalue)
    (workdir : string) : py t SingleVideoCompression.t :=
  (makedirs E workdir ;;;
   let compressor :=
     SingleVideoCompression.mk fpath_in workdir gop_size encoder encoder_config in
   cached <- get_compression E compressor ;;
   match cached with
   | None =>
       fpath <- call_transcode_video E compressor ;;
       add_compression E compressor ;;;
       ret compressor
   | Some _ => ret compressor
   end)%py.

(** The slicer that [slice] constructs, before any slicing. *)
Definition new_slicer (E : Collaborators) (compressor : SingleVideoCompression.t)
    (superframe_size : Z) (workdir_base : string) : VideoSlicer.t :=
  let workdir :=
    path_under_stem E workdir_base (human_readable_name E compressor) in
  VideoSlicer.mk (fpath_out E compressor) superframe_size workdir
    (constructed_slices E (fpath_out E compressor) superframe_size workdir).

(** [slice(self, compressor, superframe_size, workdir_base)].  On a miss the
    slicer returned holds the slices that [slice_video] produced; on a hit it
    is the slicer as constructed. *)
Definition slice (E : Collaborators) (compressor : SingleVideoCompression.t)
    (superframe_size : Z) (workdir_base : string) : py t VideoSlicer.t :=
  (let slicer := new_slicer E compressor superframe_size workdir_base in
   makedirs E (VideoSlicer.workdir slicer) ;;;
   slices <- get_slices E compressor slicer ;;
   match slices with
   | None =>
       produced <- call_slice_video E slicer ;;
       add_slices E compressor slicer produced ;;;
       ret (VideoSlicer.mk (VideoSlicer.fpath_in slicer)
              (VideoSlicer.superframe_size slicer) (VideoSlicer.workdir slicer)
              produced)
   | Some _ => ret slicer
   end)%py.

(** [init_buffer(self, slicer_forward, slicer_backward)] *)
Definition init_buffer (slicer_forward slicer_backward : VideoSlicer.t)
    : py t VideoSliceBufferReversible.t :=
  fun w => (VideoSliceBufferReversible.init slicer_forward slicer_backward, w).

End CompressureSystem.

(** ** The assembly of the frame list in [main] *)

(** [for loc in timeline: video_list.append(buffer.step(to=loc))]: the heads
    returned, in order. *)
Fixpoint step_each (timeline : list Z)
    : py VideoSliceBufferReversible.t (list Slice) :=
  match timeline with
  | [] => ret []
  | loc :: rest =>
      (head <- VideoSliceBufferReversible.step (Some loc) ;;
       heads <- step_each rest ;;
       ret (head :: heads))%py
  end.

(** The part of [main] between [init_buffer] and [concat_videos]: the frame
    list starts with [buffer.state], the timeline is generated for
    [len(buffer)] and [n_superframes - 1] points with the default category,
    and every target is stepped to. *)
Definition assemble_video_list (superframe_size : Z) (frequency : pyfloat)
    (n_superframes : Z) : py VideoSliceBufferReversible.t (list Slice) :=
  (first <- VideoSliceBufferReversible.state ;;
   buffer <- get ;;
   match generate_timeline_function superframe_size
           (Z.of_nat (VideoSliceBufferReversible.len buffer))
           (n_superframes - 1) "sinusoid" frequency with
   | Raise e => raise e
   | Ok timeline =>
       heads <- step_each timeline ;;
       ret (first :: heads)
   end)%py.

(** The configuration list that spells out a list of key/value pairs. *)
Fixpoint flatten_pairs (pairs : list (string * string)) : list string :=
  match pairs with
  | [] => []
  | (key, value) :: rest => key :: value :: flatten_pairs rest
  end.

(** A concrete set of collaborators for examples: an encoder that always
    fails, a slicer that produces two slices, writes that succeed. *)
Definition failing_encoder : Collaborators :=
  {| fpath_out := fun c => (SingleVideoCompression.workdir c ++ "/out.avi")%string;
     human_readable_name := fun c => SingleVideoCompression.fpath_in c;
     path_under_stem := fun base name => (base ++ "/" ++ name)%string;
     path_and_parents := fun path => {[path]};
     constructed_slices := fun _ _ _ => [];
     transcode_video := fun _ => Raise (ExternalToolError "ffmpeg");
     slice_video := fun _ => Ok ["0.avi"; "1.avi"];
     fingerprint_compression := fun c => SingleVideoCompression.fpath_in c;
     fingerprint_slices := fun c _ => SingleVideoCompression.fpath_in c;
     manifest_write_succeeds := fun _ => true |}.

(** * Properties *)

(** ** Numbers *)

Lemma div_eucl_pair (a b : Z) : Z.div_eucl a b = (a / b, a mod b).
Proof. unfold Z.div, Z.modulo. by destruct (Z.div_eucl a b). Qed.

(** The correctly rounded quotient of an integer by itself is one, whatever
    the size of the integer. *)
Lemma SFdiv_same (p : positive) (sx sy : bool) :
  SFdiv 53 1024 (S754_finite sx p 0) (S754_finite sy p 0)
  = S754_finite (xorb sx sy) 4503599627370496 (-52).
Proof.
  unfold SFdiv, SFdiv_core_binary.
  rewrite !Z.add_0_r, (Z.sub_diag (Zdigits2 (Z.pos p))).
  change (Z.min (fexp 53 1024 0) (0 - 0)) with (-53).
  change (0 - 0 - -53) with 53.
  cbv iota beta.
  rewrite div_eucl_pair, Z.shiftl_mul_pow2 by lia.
  rewrite (Z.mul_comm (Z.pos p)), Z.div_mul, Z.mod_mul by lia.
  assert (Hloc : new_location (Z.pos p) 0 = loc_Exact).
  { unfold new_location. by destruct (Z.even (Z.pos p)). }
  rewrite Hloc. reflexivity.
Qed.

Lemma int_truediv_same (d : Z) : d <> 0 -> int_truediv d d = Ok float_one.
Proof.
  intros Hd. destruct d as [|p|p]; [done| |];
    unfold int_truediv, exact_int;
    [change (Z.pos p =? 0) with false|change (Z.neg p =? 0) with false];
    cbv iota; by rewrite SFdiv_same.
Qed.

Lemma int_truediv_opp (d : Z) :
  d <> 0 -> int_truediv (- d) d = Ok float_minus_one.
Proof.
  intros Hd. destruct d as [|p|p]; [done| |];
    unfold int_truediv;
    [change (- Z.pos p) with (Z.neg p); change (Z.pos p =? 0) with false
    |change (- Z.neg p) with (Z.pos p); change (Z.neg p =? 0) with false];
    unfold exact_int; cbv iota; by rewrite SFdiv_same.
Qed.

Lemma int_truediv_zero (d : Z) :
  d <> 0 -> int_truediv 0 d = Ok (S754_zero (d <? 0)).
Proof. intros Hd. by destruct d. Qed.

Lemma int_truediv_read (n d : Z) (f : pyfloat) :
  int_truediv n d = Ok f -> d <> 0.
Proof. intros H ->. by destruct n. Qed.

(** With a non-zero divisor the only failure of [n / d] is the overflow. *)
Lemma int_truediv_raises (n d : Z) (e : exn) :
  d <> 0 -> int_truediv n d = Raise e -> e = OverflowError.
Proof.
  intros Hd. unfold int_truediv.
  destruct (Z.eqb_spec d 0) as [|_]; [done|].
  destruct (SFdiv 53 1024 (exact_int n) (exact_int d)); congruence.
Qed.

(** The velocity that [step(to=...)] stores reads back as the sign of the
    displacement. *)
Lemma int_truediv_sgn (delta d : Z) :
  d <> 0 ->
  int_truediv (Z.sgn delta * d) d =
    Ok (sign_float delta d).
Proof.
  intros Hd. unfold sign_float.
  destruct (Z.ltb_spec delta 0) as [Hneg|Hnn].
  - rewrite (Z.sgn_neg delta Hneg).
    replace (-1 * d) with (- d) by lia. by apply int_truediv_opp.
  - destruct (Z.ltb_spec 0 delta) as [Hpos|Hz].
    + rewrite (Z.sgn_pos delta Hpos), Z.mul_1_l. by apply int_truediv_same.
    + assert (delta = 0) as -> by lia. by apply int_truediv_zero.
Qed.

Lemma sign_float_tests (delta d : Z) :
  ge0 (sign_float delta d) = (0 <=? delta) /\
  gt0 (sign_float delta d) = (0 <? delta).
Proof.
  unfold sign_float.
  destruct (Z.ltb_spec delta 0) as [Hneg|Hnn].
  - destruct (Z.leb_spec 0 delta); [lia|].
    destruct (Z.ltb_spec 0 delta); [lia|]. by split.
  - destruct (Z.leb_spec 0 delta); [|lia].
    destruct (Z.ltb_spec 0 delta); simpl; [by split|].
    by destruct (d <? 0).
Qed.

Lemma int_of_product_int (k d : Z) : int_of_product (Int k) d = Ok (k * d).
Proof. reflexivity. Qed.

Lemma Qdiv_inject_Z_mul (k d : Z) :
  d <> 0 -> (inject_Z (k * d) / inject_Z d == inject_Z k)%Q.
Proof.
  intros Hd. rewrite inject_Z_mult. apply Qdiv_mult_l.
  intros H. apply Hd. unfold Qeq in H; simpl in H. lia.
Qed.

(** The product of a float by an integer is rounded before [int] truncates
    it: [int(0.7 * 10)] is 7, where the exact product of the double nearest to
    0.7 by 10 is below 7. *)
Example int_of_float_product :
  int_of_product (Float (S754_finite false 6305039478318694 (-53))) 10 = Ok 7 /\
  6305039478318694 * 10 < 7 * 2 ^ 53.
Proof. split; [reflexivity|lia]. Qed.

(** ** [deque.rotate] *)

Lemma length_rotate {A} (n : Z) (d : list A) : length (rotate n d) = length d.
Proof.
  destruct d as [|x d]; [reflexivity|].
  unfold rotate. rewrite length_app, length_drop, length_take.
  set (k := Z.to_nat _). lia.
Qed.

Lemma rotate_Permutation {A} (n : Z) (d : list A) : rotate n d ≡ₚ d.
Proof.
  destruct d as [|x d]; [reflexivity|].
  unfold rotate. set (k := Z.to_nat _).
  rewrite Permutation_app_comm. by rewrite take_drop.
Qed.

(** Position [i] of the rotated deque holds what was at position
    [(i - n) mod len]. *)
Lemma rotate_lookup {A} (n : Z) (d : list A) (i : nat) :
  (i < length d)%nat ->
  rotate n d !! i = d !! Z.to_nat ((Z.of_nat i - n) mod Z.of_nat (length d)).
Proof.
  intros Hi. destruct d as [|x d]; [simpl in Hi; lia|].
  unfold rotate. set (l := x :: d) in *. set (L := Z.of_nat (length l)).
  assert (HL : 0 < L) by (unfold L; lia).
  pose proof (Z.mod_pos_bound (- n) L HL) as Hk.
  set (k := (- n) mod L) in *.
  assert (Hmod : (Z.of_nat i - n) mod L = (Z.of_nat i + k) mod L).
  { replace (Z.of_nat i - n) with (Z.of_nat i + - n) by lia.
    unfold k. by rewrite Zplus_mod_idemp_r. }
  rewrite Hmod.
  destruct (decide (Z.of_nat i + k < L)) as [Hlt|Hge].
  - rewrite lookup_app_l by (rewrite length_drop; lia).
    rewrite lookup_drop. f_equal.
    rewrite Z.mod_small by lia. lia.
  - rewrite lookup_app_r by (rewrite length_drop; lia).
    rewrite length_drop, lookup_take_lt by lia. f_equal.
    rewrite <- (Zmod_unique (Z.of_nat i + k) L 1 (Z.of_nat i + k - L)) by lia.
    lia.
Qed.

Lemma rotate_nonempty {A} (n : Z) (d : list A) : d <> [] -> rotate n d <> [].
Proof.
  intros Hd Hr. apply Hd. apply length_zero_iff_nil.
  rewrite <- (length_rotate n d), Hr. reflexivity.
Qed.

Lemma rotate_0 {A} (d : list A) : rotate 0 d = d.
Proof.
  destruct d as [|x d]; [reflexivity|].
  unfold rotate. rewrite Z.opp_0, Z.mod_0_l by (simpl; lia).
  simpl. by rewrite app_nil_r.
Qed.

Lemma rotate_rotate {A} (a b : Z) (d : list A) :
  rotate a (rotate b d) = rotate (a + b) d.
Proof.
  apply list_eq. intros i.
  destruct (decide (i < length d)%nat) as [Hi|Hi].
  - rewrite rotate_lookup by (by rewrite length_rotate).
    rewrite length_rotate.
    assert (HL : 0 < Z.of_nat (length d)) by lia.
    pose proof (Z.mod_pos_bound (Z.of_nat i - a) _ HL) as Hm.
    rewrite rotate_lookup by lia.
    rewrite rotate_lookup by exact Hi.
    f_equal. f_equal. rewrite Z2Nat.id by lia.
    rewrite Zminus_mod_idemp_l. f_equal. lia.
  - rewrite !lookup_ge_None_2; [done| |]; rewrite ?length_rotate; lia.
Qed.

Lemma rotate_head {A} (n : Z) (d : list A) :
  d <> [] ->
  head (rotate n d) = d !! Z.to_nat ((- n) mod Z.of_nat (length d)).
Proof.
  intros Hd. rewrite head_lookup, rotate_lookup.
  - by rewrite Z.sub_0_l.
  - destruct d; [done|simpl; lia].
Qed.

Lemma head_rotate_elem {A} (n : Z) (d : list A) (h : A) :
  head (rotate n d) = Some h -> h ∈ d.
Proof.
  intros Hh. rewrite <- (rotate_Permutation n d).
  apply head_Some in Hh as [l ->]. apply list_elem_of_here.
Qed.

(** The displacements whose negation converts to a C [ssize_t]. *)
Lemma fits_ssize_t_opp (n : Z) :
  fits_ssize_t (- n) = true <-> - 2 ^ 63 < n <= 2 ^ 63.
Proof. unfold fits_ssize_t. rewrite andb_true_iff, Z.leb_le, Z.ltb_lt. lia. Qed.

Lemma deque_rotate_fits {A} (n : Z) (d : list A) :
  - 2 ^ 63 < n <= 2 ^ 63 -> deque_rotate (- n) d = Ok (rotate (- n) d).
Proof.
  intros Hn. unfold deque_rotate.
  by rewrite (proj2 (fits_ssize_t_opp n) Hn).
Qed.

Lemma deque_rotate_overflow {A} (n : Z) (d : list A) :
  ~ (- 2 ^ 63 < n <= 2 ^ 63) -> deque_rotate (- n) d = Raise OverflowError.
Proof.
  intros Hn. unfold deque_rotate.
  destruct (fits_ssize_t (- n)) eqn:E; [|reflexivity].
  by apply fits_ssize_t_opp in E.
Qed.

(** ** The sequencer *)

Section Sequencer.
Import VideoSliceBufferReversible.

Lemma velocity_read_nonzero (s : t) (old : pyfloat) :
  velocity s = (Ok old, s) -> _velocity_denominator s <> 0.
Proof. unfold velocity. intros [= H]. by eapply int_truediv_read. Qed.

Lemma velocity_zero_denominator (s : t) :
  _velocity_denominator s = 0 -> velocity s = (Raise ZeroDivisionError, s).
Proof. intros Hd. unfold velocity, int_truediv. by rewrite Hd. Qed.

Lemma set_velocity_read (s : t) (v : number) (old : pyfloat) :
  velocity s = (Ok old, s) ->
  set_velocity v s =
    match int_of_product v (_velocity_denominator s) with
    | Ok n =>
        (Ok tt, set_numerator n
                  (set_forward (lagged_direction (forward s) old) s))
    | Raise e =>
        (Raise e, set_forward (lagged_direction (forward s) old) s)
    end.
Proof.
  intros Hv. unfold set_velocity, bind at 1 2. rewrite Hv.
  unfold bind, modify, get, lift. simpl.
  by destruct (int_of_product v (_velocity_denominator s)).
Qed.

Lemma set_velocity_unread (s : t) (v : number) (e : exn) :
  velocity s = (Raise e, s) -> set_velocity v s = (Raise e, s).
Proof. intros Hv. unfold set_velocity, bind at 1 2. by rewrite Hv. Qed.

Lemma displacement_to (s : t) (j : Z) (old : pyfloat) :
  velocity s = (Ok old, s) ->
  displacement (Some j) s = (Ok (j - index s), retargeted old j s).
Proof.
  intros Hv. unfold displacement, bind at 1. unfold get.
  assert (Hset : forall k : Z,
    set_velocity (Int k) s =
      (Ok tt, set_numerator (k * _velocity_denominator s)
                (set_forward (lagged_direction (forward s) old) s)))
    by (intros k; by rewrite (set_velocity_read s _ old Hv)).
  unfold bind, ret.
  destruct (Z.ltb_spec (j - index s) 0) as [Hneg|Hnn].
  - rewrite Hset. unfold retargeted. by rewrite (Z.sgn_neg _ Hneg).
  - destruct (Z.ltb_spec 0 (j - index s)) as [Hpos|Hz].
    + rewrite Hset. unfold retargeted. by rewrite (Z.sgn_pos _ Hpos).
    + rewrite Hset. unfold retargeted.
      assert (j - index s = 0) as -> by lia. reflexivity.
Qed.

Lemma displacement_unread (s : t) (j : Z) (e : exn) :
  velocity s = (Raise e, s) -> displacement (Some j) s = (Raise e, s).
Proof.
  intros Hv. unfold displacement, bind at 1. unfold get.
  assert (Hset : forall v, set_velocity v s = (Raise e, s))
    by (intros v; by apply set_velocity_unread).
  unfold bind.
  destruct (j - index s <? 0); [|destruct (0 <? j - index s)];
    by rewrite Hset.
Qed.

Lemma move_fits (n : Z) (s : t) :
  - 2 ^ 63 < n <= 2 ^ 63 ->
  move n s =
    visible_head
      (mk (rotate (- n) (buffer_forward s)) (rotate (- n) (buffer_backward s))
          (forward s) (index s + n) (_velocity_numerator s)
          (_velocity_denominator s) (superframe_size s)).
Proof.
  intros Hn. unfold move, bind, get, lift, modify. simpl.
  by rewrite !(deque_rotate_fits n) by exact Hn.
Qed.

Lemma move_overflow (n : Z) (s : t) :
  ~ (- 2 ^ 63 < n <= 2 ^ 63) -> move n s = (Raise OverflowError, s).
Proof.
  intros Hn. unfold move, bind, get, lift. simpl.
  by rewrite (deque_rotate_overflow n _ Hn).
Qed.

(** [step(to=j)] when the velocity can be read and the displacement fits. *)
Lemma step_to_defined (s : t) (j : Z) (old : pyfloat) :
  velocity s = (Ok old, s) ->
  - 2 ^ 63 < j - index s <= 2 ^ 63 ->
  step (Some j) s = visible_head (stepped_to old j s).
Proof.
  intros Hv Hn. unfold step, bind. rewrite (displacement_to s j old Hv).
  rewrite move_fits by exact Hn. unfold stepped_to. simpl.
  by replace (index s + (j - index s)) with j by lia.
Qed.

(** [step(to=j)] when the displacement does not fit: the velocity and the
    direction are set, the deques and the cursor are as before. *)
Lemma step_to_overflow (s : t) (j : Z) (old : pyfloat) :
  velocity s = (Ok old, s) ->
  ~ (- 2 ^ 63 < j - index s <= 2 ^ 63) ->
  step (Some j) s = (Raise OverflowError, retargeted old j s).
Proof.
  intros Hv Hn. unfold step, bind. rewrite (displacement_to s j old Hv).
  by rewrite move_overflow.
Qed.

(** [step(to=j)] when the velocity cannot be read: nothing changes. *)
Lemma step_to_unread (s : t) (j : Z) (e : exn) :
  velocity s = (Raise e, s) -> step (Some j) s = (Raise e, s).
Proof.
  intros Hv. unfold step, bind. by rewrite (displacement_unread s j e Hv).
Qed.

Lemma visible_head_state (s : t) : snd (visible_head s) = s.
Proof.
  unfold visible_head, bind, velocity, get, head0, raise, ret.
  repeat case_match; simplify_eq/=; reflexivity.
Qed.

Lemma velocity_stepped_to (s : t) (j : Z) (old : pyfloat) :
  _velocity_denominator s <> 0 ->
  velocity (stepped_to old j s)
  = (Ok (sign_float (j - index s) (_velocity_denominator s)), stepped_to old j s).
Proof.
  intros Hd. unfold velocity. simpl. by rewrite int_truediv_sgn.
Qed.

Lemma velocity_retargeted (s : t) (j : Z) (old : pyfloat) :
  _velocity_denominator s <> 0 ->
  velocity (retargeted old j s)
  = (Ok (sign_float (j - index s) (_velocity_denominator s)), retargeted old j s).
Proof.
  intros Hd. unfold velocity. simpl. by rewrite int_truediv_sgn.
Qed.

Lemma velocity_of_multiple (s : t) (k : Z) :
  _velocity_denominator s <> 0 ->
  _velocity_numerator s = k * _velocity_denominator s ->
  (velocity_of s == inject_Z k)%Q.
Proof.
  intros Hd Hn. unfold velocity_of. rewrite Hn. by apply Qdiv_inject_Z_mul.
Qed.

(** With both deques non-empty the head that [step] returns is selected by
    the tie-break on the direction and the velocity read. *)
Lemma visible_head_tiebreak (s : t) (v : pyfloat) (x y : Slice)
    (fs bs : list Slice) :
  velocity s = (Ok v, s) ->
  buffer_forward s = x :: fs ->
  buffer_backward s = y :: bs ->
  visible_head s =
    (Ok (if forward s
         then (if ge0 v then x else y)
         else (if gt0 v then x else y)), s).
Proof.
  intros Hv Hf Hb. unfold visible_head, bind, get.
  rewrite Hv, Hf, Hb.
  destruct (forward s), (ge0 v), (gt0 v); reflexivity.
Qed.

(** The property [state] looks at the direction alone. *)
Lemma state_direction_only (s : t) (x y : Slice) (fs bs : list Slice) :
  buffer_forward s = x :: fs ->
  buffer_backward s = y :: bs ->
  state s = (Ok (if forward s then x else y), s).
Proof.
  intros Hf Hb. unfold state. rewrite Hf, Hb. by destruct (forward s).
Qed.

(** The outcome of [step(to=j)] when both deques hold something. *)
Lemma step_to_returns (s : t) (j : Z) (old : pyfloat) :
  velocity s = (Ok old, s) ->
  - 2 ^ 63 < j - index s <= 2 ^ 63 ->
  buffer_forward s <> [] ->
  buffer_backward s <> [] ->
  exists h,
    step (Some j) s = (Ok h, stepped_to old j s) /\
    Some h =
      (if (if lagged_direction (forward s) old
           then 0 <=? j - index s else 0 <? j - index s)
       then head (rotate (- (j - index s)) (buffer_forward s))
       else head (rotate (- (j - index s)) (buffer_backward s))).
Proof.
  intros Hv Hn Hf Hb.
  pose proof (velocity_read_nonzero s old Hv) as Hd.
  pose proof (rotate_nonempty (- (j - index s)) _ Hf) as Hf'.
  pose proof (rotate_nonempty (- (j - index s)) _ Hb) as Hb'.
  destruct (rotate (- (j - index s)) (buffer_forward s)) as [|x fs] eqn:Ef; [done|].
  destruct (rotate (- (j - index s)) (buffer_backward s)) as [|y bs] eqn:Eb; [done|].
  rewrite (step_to_defined s j old Hv Hn).
  rewrite (visible_head_tiebreak (stepped_to old j s) _ x y fs bs
             (velocity_stepped_to s j old Hd) Ef Eb).
  destruct (sign_float_tests (j - index s) (_velocity_denominator s)) as [Hge Hgt].
  rewrite Hge, Hgt. eexists. split; [reflexivity|]. simpl.
  destruct (lagged_direction (forward s) old);
    [destruct (0 <=? j - index s)|destruct (0 <? j - index s)]; reflexivity.
Qed.

(** *** Stepping to a target *)

(** The final state of a [step(to=j)] that can read the velocity and whose
    displacement [deque.rotate] accepts. *)
Lemma step_to_final (s : t) (j : Z) (old : pyfloat) :
  velocity s = (Ok old, s) ->
  - 2 ^ 63 < j - index s <= 2 ^ 63 ->
  snd (step (Some j) s) = stepped_to old j s.
Proof.
  intros Hv Hn. rewrite (step_to_defined s j old Hv Hn).
  apply visible_head_state.
Qed.

(** C4.  On a sequencer whose velocity can be read, at cursor index [i],
    [step(to=j)] with a displacement [j - i] whose negation fits a C
    [ssize_t] leaves the cursor index equal to [j]; the velocity it stores is
    the sign of [j - i] alone ([-1], [1] or [0], read back as [-1.0], [1.0]
    or a zero); both deques are rotated by [-(j - i)], the raw difference;
    and with both deques non-empty the call returns a head.  With a
    displacement that does not fit, the call raises [OverflowError] in
    [deque.rotate], the sign stored and the direction updated but the deques
    and the cursor as they were.  On a sequencer whose velocity cannot be
    read the call raises what the getter raises and changes nothing. *)
Theorem step_to_exact (s : t) (j : Z) :
  let delta := j - index s in
  (forall old,
     velocity s = (Ok old, s) ->
     - 2 ^ 63 < delta <= 2 ^ 63 ->
     let s' := snd (step (Some j) s) in
     index s' = j /\
     (delta < 0 ->
      velocity s' = (Ok float_minus_one, s') /\ (velocity_of s' == -1)%Q) /\
     (0 < delta ->
      velocity s' = (Ok float_one, s') /\ (velocity_of s' == 1)%Q) /\
     (delta = 0 ->
      (exists sign, velocity s' = (Ok (S754_zero sign), s')) /\
      (velocity_of s' == 0)%Q) /\
     _velocity_numerator s' = Z.sgn delta * _velocity_denominator s /\
     _velocity_denominator s' = _velocity_denominator s /\
     buffer_forward s' = rotate (- delta) (buffer_forward s) /\
     buffer_backward s' = rotate (- delta) (buffer_backward s) /\
     forward s' = (if forward s then ge0 old else gt0 old) /\
     superframe_size s' = superframe_size s /\
     (buffer_forward s <> [] -> buffer_backward s <> [] ->
      exists head, step (Some j) s = (Ok head, s'))) /\
  (forall old,
     velocity s = (Ok old, s) ->
     ~ (- 2 ^ 63 < delta <= 2 ^ 63) ->
     exists s',
       step (Some j) s = (Raise OverflowError, s') /\
       index s' = index s /\
       buffer_forward s' = buffer_forward s /\
       buffer_backward s' = buffer_backward s /\
       _velocity_numerator s' = Z.sgn delta * _velocity_denominator s /\
       _velocity_denominator s' = _velocity_denominator s /\
       forward s' = (if forward s then ge0 old else gt0 old) /\
       superframe_size s' = superframe_size s) /\
  (forall e,
     velocity s = (Raise e, s) ->
     step (Some j) s = (Raise e, s)).
Proof.
  intros delta. split; [|split].
  - intros old Hv Hn s'.
    pose proof (velocity_read_nonzero s old Hv) as Hd.
    assert (Hs' : s' = stepped_to old j s) by (by apply step_to_final).
    pose proof (velocity_stepped_to s j old Hd) as Hread.
    rewrite <- Hs' in Hread. fold delta in Hread. unfold sign_float in Hread.
    assert (Hq : (velocity_of s' == inject_Z (Z.sgn delta))%Q).
    { apply velocity_of_multiple; rewrite Hs'; [exact Hd|reflexivity]. }
    split; [by rewrite Hs'|].
    split.
    { intros Hneg. destruct (Z.ltb_spec delta 0); [|lia].
      split; [exact Hread|]. rewrite Hq, (Z.sgn_neg delta Hneg). reflexivity. }
    split.
    { intros Hpos. destruct (Z.ltb_spec delta 0); [lia|].
      destruct (Z.ltb_spec 0 delta); [|lia].
      split; [exact Hread|]. rewrite Hq, (Z.sgn_pos delta Hpos). reflexivity. }
    split.
    { intros Hz. rewrite Hz in Hread. simpl in Hread.
      split; [by eexists|]. rewrite Hq, Hz. reflexivity. }
    split; [by rewrite Hs'|]. split; [by rewrite Hs'|].
    split; [by rewrite Hs'|]. split; [by rewrite Hs'|].
    split; [by rewrite Hs'|]. split; [by rewrite Hs'|].
    intros Hf Hb. rewrite Hs'.
    destruct (step_to_returns s j old Hv Hn Hf Hb) as (h & Hrun & _). by exists h.
  - intros old Hv Hn. exists (retargeted old j s).
    split; [by apply step_to_overflow|]. by repeat split.
  - intros e Hv. by apply step_to_unread.
Qed.

Lemma step_to_exact_witness :
  index (snd (step (Some 2) (mk ["a"; "b"; "c"] ["c"; "b"; "a"] true 4 6 6 None))) = 2 /\
  buffer_forward (snd (step (Some 2) (mk ["a"; "b"; "c"] ["c"; "b"; "a"] true 4 6 6 None)))
    = ["b"; "c"; "a"].
Proof.
  assert (Hv : velocity (mk ["a"; "b"; "c"] ["c"; "b"; "a"] true 4 6 6 None)
               = (Ok float_one, mk ["a"; "b"; "c"] ["c"; "b"; "a"] true 4 6 6 None))
    by reflexivity.
  assert (Hn : - 2 ^ 63 <
               2 - index (mk ["a"; "b"; "c"] ["c"; "b"; "a"] true 4 6 6 None)
               <= 2 ^ 63) by (simpl; lia).
  destruct (step_to_exact (mk ["a"; "b"; "c"] ["c"; "b"; "a"] true 4 6 6 None) 2)
    as (Hexact & _).
  destruct (Hexact _ Hv Hn) as (Hi & _ & _ & _ & _ & _ & Hf & _).
  split; [exact Hi|exact Hf].
Defined.

(** C4, as the claim is worded, fails in two ways.  On a sequencer built with
    superframe size 0 the velocity cannot be read: [step(to=3)] raises
    [ZeroDivisionError] and the cursor stays at 0.  And a displacement beyond
    a C [ssize_t] is refused by [deque.rotate]: [step(to=2^63 + 1)] raises
    [OverflowError] with the velocity already set and the cursor still at
    0. *)
Lemma step_to_not_exact :
  (step (Some 3) (mk ["a"; "b"] ["b"; "a"] true 0 0 0 None)
     = (Raise ZeroDivisionError, mk ["a"; "b"] ["b"; "a"] true 0 0 0 None) /\
   index (snd (step (Some 3) (mk ["a"; "b"] ["b"; "a"] true 0 0 0 None))) <> 3) /\
  (step (Some (2 ^ 63 + 1)) (mk ["a"; "b"] ["b"; "a"] true 0 6 6 None)
     = (Raise OverflowError, mk ["a"; "b"] ["b"; "a"] true 0 6 6 None) /\
   index (snd (step (Some (2 ^ 63 + 1)) (mk ["a"; "b"] ["b"; "a"] true 0 6 6 None)))
     <> 2 ^ 63 + 1).
Proof.
  split; (split; [vm_compute; reflexivity|vm_compute; discriminate]).
Qed.

(** *** The setter of the velocity *)

(** C5.  On a sequencer whose velocity can be read, [set_velocity(v)] first
    recomputes the direction from the velocity it reads and the direction it
    finds (Forward iff the old velocity is [>= 0] when the direction was
    Forward, iff it is [> 0] when the direction was Backward), whatever [v]
    is, and only then stores the numerator [int(v * denominator)] over the
    unchanged denominator: for an [int] [v] the product itself; when the
    product or its truncation fails, the exception leaves the direction
    already updated and the numerator as it was.  Nothing else changes.  On
    a sequencer whose velocity cannot be read the setter raises what the
    getter raises and changes nothing. *)
Theorem set_velocity_direction_lags (s : t) (v : number) :
  (forall old,
     velocity s = (Ok old, s) ->
     exists s1,
       forward s1 = (if forward s then ge0 old else gt0 old) /\
       buffer_forward s1 = buffer_forward s /\
       buffer_backward s1 = buffer_backward s /\
       index s1 = index s /\
       _velocity_numerator s1 = _velocity_numerator s /\
       _velocity_denominator s1 = _velocity_denominator s /\
       superframe_size s1 = superframe_size s /\
       (forall n, int_of_product v (_velocity_denominator s) = Ok n ->
                  set_velocity v s = (Ok tt, set_numerator n s1)) /\
       (forall e, int_of_product v (_velocity_denominator s) = Raise e ->
                  set_velocity v s = (Raise e, s1)) /\
       (forall k, v = Int k ->
                  set_velocity v s
                  = (Ok tt, set_numerator (k * _velocity_denominator s) s1))) /\
  (forall e,
     velocity s = (Raise e, s) ->
     set_velocity v s = (Raise e, s)).
Proof.
  split.
  - intros old Hv.
    exists (set_forward (lagged_direction (forward s) old) s).
    repeat (split; [reflexivity|]).
    rewrite (set_velocity_read s v old Hv).
    split; [by intros n ->|]. split; [by intros e ->|].
    by intros k ->.
  - intros e Hv. by apply set_velocity_unread.
Qed.

Lemma set_velocity_direction_lags_witness :
  exists s1,
    forward s1 = false /\
    set_velocity (Float (S754_finite false 4503599627370496 (-53)))
      (mk ["a"; "b"] ["b"; "a"] true 0 (-6) 6 None)
    = (Ok tt, set_numerator 3 s1).
Proof.
  assert (Hv : velocity (mk ["a"; "b"] ["b"; "a"] true 0 (-6) 6 None)
               = (Ok float_minus_one, mk ["a"; "b"] ["b"; "a"] true 0 (-6) 6 None))
    by reflexivity.
  destruct (set_velocity_direction_lags
              (mk ["a"; "b"] ["b"; "a"] true 0 (-6) 6 None)
              (Float (S754_finite false 4503599627370496 (-53))))
    as (Hread & _).
  destruct (Hread _ Hv) as (s1 & Hfwd & _ & _ & _ & _ & _ & _ & Hok & _).
  exists s1. split; [exact Hfwd|]. apply Hok. reflexivity.
Defined.

(** C5, as the claim is worded, fails in two ways.  On a sequencer built with
    superframe size 0 the setter raises [ZeroDivisionError] before it has
    updated the direction or stored anything.  And what is stored is not [v]
    but [int(v * denominator)] over the denominator: after
    [set_velocity(0.1)] on a denominator 6 the numerator is 0. *)
Lemma set_velocity_not_always_stored :
  set_velocity (Int 1) (mk ["a"] ["a"] false 0 5 0 None)
    = (Raise ZeroDivisionError, mk ["a"] ["a"] false 0 5 0 None) /\
  set_velocity (Float (S754_finite false 7205759403792794 (-56)))
    (mk ["a"] ["a"] true 0 6 6 None)
    = (Ok tt, mk ["a"] ["a"] true 0 0 6 None).
Proof. split; vm_compute; reflexivity. Qed.

(** *** Construction *)

Lemma init_velocity_one (f b : VideoSlicer.t) (s : t) :
  VideoSlicer.superframe_size f <> 0 ->
  init f b = Ok s ->
  velocity s = (Ok float_one, s) /\ (velocity_of s == 1)%Q.
Proof.
  intros Hsf [= <-]. split.
  - unfold velocity. simpl. by rewrite int_truediv_same.
  - apply (velocity_of_multiple _ 1); simpl; [exact Hsf|lia].
Qed.

Lemma init_state_head (f b : VideoSlicer.t) (s : t) (x : Slice) (fs : list Slice) :
  VideoSlicer.slices f = x :: fs ->
  init f b = Ok s ->
  state s = (Ok x, s).
Proof. intros Hf [= <-]. unfold state; simpl. by rewrite Hf. Qed.

(** Had a client assigned the attribute [superframe_size], a velocity-driven
    step would move the cursor by [int(superframe_size * velocity)], when
    that product is an integer that [deque.rotate] accepts. *)
Lemma step_velocity_driven_with_attribute (s : t) (sf n : Z) (v : pyfloat)
    (p : number) :
  velocity s = (Ok v, s) ->
  superframe_size s = Some sf ->
  number_mul (Int sf) (Float v) = Ok p ->
  py_int p = Ok n ->
  - 2 ^ 63 < n <= 2 ^ 63 ->
  index (snd (step None s)) = index s + n.
Proof.
  intros Hv Hsf Hp Hn Hfit.
  unfold step, displacement, bind, get_superframe_size, get, lift, ret.
  rewrite Hsf, Hv, Hp, Hn.
  rewrite move_fits by exact Hfit. by rewrite visible_head_state.
Qed.

(** C2.  The constructor performs no check on the lengths of the two slice
    sets: for every pair of slice sets it succeeds, with the forward queue
    equal to the forward slices and the backward queue equal to the backward
    slices reversed, so the two queues have the lengths of their slice
    sets, equal or not. *)
Theorem init_never_checks_lengths (f b : VideoSlicer.t) :
  exists s,
    init f b = Ok s /\
    buffer_forward s = VideoSlicer.slices f /\
    buffer_backward s = rev (VideoSlicer.slices b) /\
    length (buffer_forward s) = length (VideoSlicer.slices f) /\
    length (buffer_backward s) = length (VideoSlicer.slices b).
Proof.
  eexists. split; [reflexivity|]. simpl.
  repeat split. apply length_rev.
Qed.

(** C2, as the claim is worded, fails: slice sets of lengths 40 and 42 are
    accepted and a sequencer with queues of lengths 40 and 42 is built. *)
Lemma init_lengths_40_42_constructs :
  length (VideoSlicer.slices (VideoSlicer.mk "f.avi" 6 "fwd" (replicate 40 "f"))) <>
  length (VideoSlicer.slices (VideoSlicer.mk "b.avi" 6 "bwd" (replicate 42 "b"))) /\
  exists s,
    init (VideoSlicer.mk "f.avi" 6 "fwd" (replicate 40 "f")) (VideoSlicer.mk "b.avi" 6 "bwd" (replicate 42 "b"))
      = Ok s /\
    length (buffer_forward s) = 40%nat /\ length (buffer_backward s) = 42%nat.
Proof.
  split; [vm_compute; lia|].
  eexists. split; [reflexivity|]. split; reflexivity.
Qed.

(** C9.  After construction the direction is Forward, the cursor index is 0
    and numerator and denominator of the velocity both hold the superframe
    size of the forward slicer; the velocity-driven [step()] on the fresh
    sequencer does not advance it: it raises [AttributeError], since the
    attribute [superframe_size] that it reads was never assigned, and leaves
    the state as it was. *)
Theorem init_then_step_raises (f b : VideoSlicer.t) :
  exists s,
    init f b = Ok s /\
    forward s = true /\
    index s = 0 /\
    _velocity_numerator s = VideoSlicer.superframe_size f /\
    _velocity_denominator s = VideoSlicer.superframe_size f /\
    step None s = (Raise (AttributeError "superframe_size"), s).
Proof. eexists. split; [reflexivity|]. repeat split. Qed.

(** *** Acceleration *)

(** The arithmetic of the scenario, on a sequencer to which a client has
    assigned [superframe_size = 6]: from velocity 6/6 at index 0,
    [accelerate(1)] stores the velocity 7/6 and moves the cursor to 7. *)
Lemma accelerate_scenario_with_attribute (fs bs : list Slice) :
  accelerate 1 (mk fs bs true 0 6 6 (Some 6)) =
    visible_head (mk (rotate (-7) fs) (rotate (-7) bs) true 7 7 6 (Some 6)).
Proof. reflexivity. Qed.

(** C1.  A sequencer constructed with superframe size 6 has velocity 1 and
    cursor index 0, and [accelerate(degree=1)] on it raises [AttributeError]
    on reading [self.superframe_size]: the velocity is not changed, no step
    is taken and the cursor index stays 0. *)
Theorem accelerate_after_init_raises (fpath_in workdir : string)
    (fs : list Slice) (slicer_backward : VideoSlicer.t) :
  exists s,
    init (VideoSlicer.mk fpath_in 6 workdir fs) slicer_backward = Ok s /\
    index s = 0 /\
    (velocity_of s == 1)%Q /\
    accelerate 1 s = (Raise (AttributeError "superframe_size"), s).
Proof.
  eexists. split; [reflexivity|]. repeat split.
Qed.

(** *** Reading the head *)

(** C3.  After construction from [a b c d] and [w x y z] and one step to the
    target [-1], the direction is still Forward and the velocity is [-1];
    [step] returned the head of the backward queue, and the property [state]
    on the same sequencer returns the head of the forward queue. *)
Theorem state_disagrees_with_step_head :
  exists s0 s1,
    init (VideoSlicer.mk "f.avi" 6 "fwd" ["a"; "b"; "c"; "d"])
         (VideoSlicer.mk "b.avi" 6 "bwd" ["w"; "x"; "y"; "z"]) = Ok s0 /\
    step (Some (-1)) s0 = (Ok "w", s1) /\
    forward s1 = true /\
    (velocity_of s1 == -1)%Q /\
    head (buffer_forward s1) = Some "d" /\
    head (buffer_backward s1) = Some "w" /\
    visible_head s1 = (Ok "w", s1) /\
    state s1 = (Ok "d", s1).
Proof.
  eexists. eexists. split; [reflexivity|].
  split; [vm_compute; reflexivity|].
  repeat split.
Qed.

End Sequencer.

(** ** The timeline generator *)

Section Timeline.
Local Open Scope R_scope.

(** On a non-negative sample the cast drops the fractional part: the result
    is the integer just below or at the sample, never the nearest one above. *)
Lemma truncate_truncates (x : R) :
  0 <= x -> IZR (truncate x) <= x < IZR (truncate x) + 1.
Proof.
  intros Hx. unfold truncate. destruct (Rle_dec 0 x); [|contradiction].
  destruct (base_Int_part x). lra.
Qed.

Lemma truncate_range (x : R) (c : Z) :
  0 <= x <= IZR c -> (0 <= truncate x <= c)%Z.
Proof.
  intros [H0 Hc]. destruct (truncate_truncates x H0) as [Hlo Hhi]. split.
  - assert (-1 < truncate x)%Z by (apply lt_IZR; lra). lia.
  - apply le_IZR. lra.
Qed.

Lemma astype_int_range (x : R) (c : Z) :
  (c < 2 ^ 63)%Z -> 0 <= x <= IZR c -> (0 <= astype_int (Finite x) <= c)%Z.
Proof.
  intros Hc Hx. pose proof (truncate_range x c Hx) as Ht.
  unfold astype_int.
  destruct (Z.leb_spec (- 2 ^ 63) (truncate x)); [|lia].
  destruct (Z.ltb_spec (truncate x) (2 ^ 63)); [|lia].
  exact Ht.
Qed.

Lemma scaled_sine_range (t : R) (c : Z) :
  (0 <= c)%Z -> 0 <= Rabs (sin t * IZR c) <= IZR c.
Proof.
  intros Hc. split; [apply Rabs_pos|].
  rewrite Rabs_mult. apply IZR_le in Hc.
  rewrite (Rabs_pos_eq (IZR c)) by exact Hc.
  assert (Rabs (sin t) <= 1) by (apply Rabs_le, SIN_bound).
  nra.
Qed.

(** The target that a finite sample becomes. *)
Lemma target_of_finite (c : Z) (t : R) :
  map astype_int (mirror_negative [times_int c (np_sin (Finite t))])
  = [astype_int (Finite (Rabs (sin t * IZR c)))].
Proof.
  simpl. unfold Rabs.
  destruct (Rlt_dec (sin t * IZR c) 0), (Rcase_abs (sin t * IZR c));
    try reflexivity; lra.
Qed.

(** The target that a sample which is not finite becomes. *)
Lemma target_of_non_finite (c : Z) (t : float64) :
  (forall x, t <> Finite x) ->
  map astype_int (mirror_negative [times_int c (np_sin t)]) = [(- 2 ^ 63)%Z].
Proof. intros Ht. destruct t as [x| |]; [by destruct (Ht x)| |]; reflexivity. Qed.

Lemma targets_map (c : Z) (ts : list float64) :
  map astype_int (mirror_negative (map (fun t => times_int c (np_sin t)) ts))
  = flat_map (fun t => map astype_int
                         (mirror_negative [times_int c (np_sin t)])) ts.
Proof.
  induction ts as [|t ts IH]; [reflexivity|].
  simpl. f_equal. exact IH.
Qed.

Lemma linspace_length (start : R) (stop : float64) (num : Z) :
  (0 <= num)%Z ->
  exists ts, linspace start stop num = Ok ts /\ length ts = Z.to_nat num.
Proof.
  intros Hn. unfold linspace.
  destruct (Z.ltb_spec num 0); [lia|].
  destruct stop; eexists; (split; [reflexivity|]);
    by rewrite length_map, length_seq.
Qed.

Lemma linspace_finite (start stop : R) (num : Z) (ts : list float64) :
  linspace start (Finite stop) num = Ok ts ->
  Forall (fun t => exists x, t = Finite x) ts.
Proof.
  unfold linspace. destruct (num <? 0)%Z; [discriminate|].
  intros [= <-]. apply Forall_map, Forall_forall. intros i _. by eexists.
Qed.

Lemma linspace_non_finite (start : R) (stop : float64) (num : Z)
    (ts : list float64) :
  (forall x, stop <> Finite x) ->
  linspace start stop num = Ok ts ->
  Forall (fun t => np_sin t = NaN) ts.
Proof.
  intros Hstop. unfold linspace. destruct (num <? 0)%Z; [discriminate|].
  destruct stop as [x| |]; [by destruct (Hstop x)| |];
    intros [= <-]; apply Forall_map, Forall_forall; intros i _;
    by destruct i.
Qed.

(** What the generator computes for each of the two waveforms. *)
Lemma timeline_of_samples (superframe_size len_lvb n_superframes : Z)
    (frequency : pyfloat) (ts : list float64) :
  linspace 0 (float64_of_float (float_mul two_pi frequency)) n_superframes
    = Ok ts ->
  generate_timeline_function superframe_size len_lvb n_superframes
      "sinusoid" frequency
    = Ok (map astype_int
            (mirror_negative
               (map (fun t => times_int (len_lvb - 1) (np_sin t)) ts))) /\
  generate_timeline_function superframe_size len_lvb n_superframes
      "compound-sinusoid" frequency
    = Ok (map astype_int
            (mirror_negative
               (map (fun t => times_int len_lvb (np_sin t)) ts))).
Proof.
  intros Hts. unfold generate_timeline_function.
  change (String.eqb "sinusoid" "sinusoid") with true.
  change (String.eqb "compound-sinusoid" "sinusoid") with false.
  change (String.eqb "compound-sinusoid" "compound-sinusoid") with true.
  cbv iota. by rewrite Hts.
Qed.

Lemma timeline_raises (superframe_size len_lvb n_superframes : Z)
    (frequency : pyfloat) (e : exn) :
  linspace 0 (float64_of_float (float_mul two_pi frequency)) n_superframes
    = Raise e ->
  generate_timeline_function superframe_size len_lvb n_superframes
      "sinusoid" frequency = Raise e /\
  generate_timeline_function superframe_size len_lvb n_superframes
      "compound-sinusoid" frequency = Raise e.
Proof.
  intros Hts. unfold generate_timeline_function.
  change (String.eqb "sinusoid" "sinusoid") with true.
  change (String.eqb "compound-sinusoid" "sinusoid") with false.
  change (String.eqb "compound-sinusoid" "compound-sinusoid") with true.
  cbv iota. by rewrite Hts.
Qed.

Lemma finite_targets_bounded (c : Z) (ts : list float64) :
  (0 <= c < 2 ^ 63)%Z ->
  Forall (fun t => exists x, t = Finite x) ts ->
  Forall (fun z => (0 <= z <= c)%Z)
    (map astype_int (mirror_negative (map (fun t => times_int c (np_sin t)) ts))).
Proof.
  intros Hc Hts. rewrite targets_map.
  induction Hts as [|t ts [x ->] _ IH]; [constructor|].
  cbn [flat_map]. rewrite target_of_finite. constructor; [|exact IH].
  apply astype_int_range; [lia|]. apply scaled_sine_range. lia.
Qed.

Lemma non_finite_targets (c : Z) (ts : list float64) :
  Forall (fun t => np_sin t = NaN) ts ->
  Forall (fun z => z = (- 2 ^ 63)%Z)
    (map astype_int (mirror_negative (map (fun t => times_int c (np_sin t)) ts))).
Proof.
  intros Hts. induction Hts as [|t ts Ht _ IH]; [constructor|].
  simpl. rewrite Ht. constructor; [reflexivity|exact IH].
Qed.

(** The default waveform on a buffer of at least one slice: as many targets
    as points, all of them inside the buffer. *)
Lemma sinusoid_timeline_defined (superframe_size len_lvb n_superframes : Z)
    (frequency : pyfloat) (stop : R) :
  float64_of_float (float_mul two_pi frequency) = Finite stop ->
  (1 <= len_lvb <= 2 ^ 53)%Z ->
  (0 <= n_superframes)%Z ->
  exists timeline,
    generate_timeline_function superframe_size len_lvb n_superframes
      "sinusoid" frequency = Ok timeline /\
    length timeline = Z.to_nat n_superframes /\
    Forall (fun z => (0 <= z <= len_lvb - 1)%Z) timeline.
Proof.
  intros Hstop Hlen Hn.
  destruct (linspace_length 0 (float64_of_float (float_mul two_pi frequency))
              n_superframes Hn) as (ts & Hts & Hlents).
  destruct (timeline_of_samples superframe_size len_lvb _ _ ts Hts) as [H _].
  eexists. split; [exact H|].
  split; [unfold mirror_negative; by rewrite !length_map|].
  rewrite Hstop in Hts.
  apply finite_targets_bounded; [lia|]. by eapply linspace_finite.
Qed.




(** C6.  A category other than [sinusoid] and [compound-sinusoid] makes the
    generator fail, whatever the other arguments are; the exception raised is
    Python's [NotImplementedError]. *)
Theorem unknown_category_raises (superframe_size len_lvb n_superframes : Z)
    (category : string) (frequency : pyfloat) :
  category <> "sinusoid" ->
  category <> "compound-sinusoid" ->
  generate_timeline_function superframe_size len_lvb n_superframes
    category frequency = Raise (NotImplementedError category).
Proof.
  intros H1 H2. unfold generate_timeline_function.
  apply String.eqb_neq in H1, H2. rewrite H1, H2. reflexivity.
Qed.

Lemma unknown_category_raises_witness :
  "square" <> "sinusoid" /\ "square" <> "compound-sinusoid" /\
  generate_timeline_function 6 50 10 "square" float_one
    = Raise (NotImplementedError "square").
Proof.
  assert (H1 : "square" <> "sinusoid") by discriminate.
  assert (H2 : "square" <> "compound-sinusoid") by discriminate.
  split; [exact H1|]. split; [exact H2|].
  exact (unknown_category_raises 6 50 10 "square" float_one H1 H2).
Defined.

End Timeline.

(** ** The encoder configuration *)

Section EncoderConfig.

Lemma list_pair_ind {A} (P : list A -> Prop) :
  P [] -> (forall x, P [x]) -> (forall x y l, P l -> P (x :: y :: l)) ->
  forall l, P l.
Proof.
  intros Hnil Hone Hstep l.
  assert (H : P l /\ forall x, P (x :: l)).
  { induction l as [|a l [IH1 IH2]]; [by split|].
    split; [apply IH2|]. intros x. by apply Hstep. }
  apply H.
Qed.

Lemma write_pairs_cons (k v : string) (pairs : list (string * string))
    (m : gmap string pyvalue) :
  write_pairs ((k, v) :: pairs) m = write_pairs pairs (<[k := PyStr v]> m).
Proof. reflexivity. Qed.

Lemma write_pairs_app (pre post : list (string * string))
    (m : gmap string pyvalue) :
  write_pairs (pre ++ post) m = write_pairs post (write_pairs pre m).
Proof. unfold write_pairs. apply foldl_app. Qed.

Lemma write_pairs_other (pairs : list (string * string))
    (m : gmap string pyvalue) (k : string) :
  k ∉ pairs.*1 -> write_pairs pairs m !! k = m !! k.
Proof.
  revert m. induction pairs as [|[k' v'] pairs IH]; intros m Hk; [reflexivity|].
  rewrite write_pairs_cons. rewrite fmap_cons in Hk. simpl in Hk.
  apply not_elem_of_cons in Hk as [Hne Hk].
  rewrite (IH _ Hk). by rewrite lookup_insert_ne.
Qed.

Lemma write_pairs_last (pre post : list (string * string))
    (m : gmap string pyvalue) (k v : string) :
  k ∉ post.*1 -> write_pairs (pre ++ (k, v) :: post) m !! k = Some (PyStr v).
Proof.
  intros Hk. rewrite write_pairs_app, write_pairs_cons.
  rewrite (write_pairs_other _ _ _ Hk). apply lookup_insert_eq.
Qed.

(** A run of the loop that completes has written every pair, in order, into
    the dictionary object. *)
Lemma apply_user_config_ok (encoder : string) (n : nat)
    (user_specified_config : list string) :
  forall (encoder_config written : gmap string pyvalue),
    apply_user_config encoder n user_specified_config encoder_config
      = (Ok tt, written) ->
    written = write_pairs (config_pairs user_specified_config) encoder_config.
Proof.
  induction user_specified_config as [|x|key value rest IH] using list_pair_ind;
    intros encoder_config written Hrun.
  - by injection Hrun as <-.
  - discriminate.
  - simpl in Hrun.
    destruct (get_is_None encoder_config key); [discriminate|].
    by apply IH in Hrun.
Qed.

(** C10.  A call that returns has written its overrides into the dictionary
    object that the shared table holds for the encoder, and returns a
    reference to that very object.  A later call with an empty override list
    returns the same object with the table unchanged: every key holds the last
    value an earlier override gave it, the other keys hold their defaults, and
    as soon as one override changed a value the mapping returned is not the
    original default mapping. *)
Theorem overrides_persist_in_shared_defaults
    (options options' : EncoderConfigOptions) (encoder : string)
    (user_specified_config : list string) (r : dict_ref) :
  construct_encoder_config encoder user_specified_config options = (Ok r, options') ->
  exists defaults current,
    options !! encoder = Some defaults /\
    current = write_pairs (config_pairs user_specified_config) defaults /\
    options' = <[encoder := current]> options /\
    r = EncoderConfigRef encoder /\
    deref r options' = Some current /\
    construct_encoder_config encoder [] options' = (Ok r, options') /\
    (forall pre k v post,
       config_pairs user_specified_config = pre ++ (k, v) :: post ->
       k ∉ post.*1 -> current !! k = Some (PyStr v)) /\
    (forall k, k ∉ (config_pairs user_specified_config).*1 ->
               current !! k = defaults !! k) /\
    (forall k v, current !! k = Some (PyStr v) ->
                 defaults !! k <> Some (PyStr v) ->
                 deref r options' <> Some defaults).
Proof.
  intros Hcall. unfold construct_encoder_config in Hcall.
  destruct (options !! encoder) as [defaults|] eqn:Hdef; [|discriminate].
  destruct (apply_user_config _ _ _ defaults) as [[[]|e] written] eqn:Hrun;
    [|discriminate].
  injection Hcall as <- <-.
  pose proof (apply_user_config_ok _ _ _ _ _ Hrun) as ->.
  set (current := write_pairs (config_pairs user_specified_config) defaults).
  exists defaults, current.
  assert (Hderef : deref (EncoderConfigRef encoder) (<[encoder:=current]> options)
                   = Some current) by (simpl; apply lookup_insert_eq).
  split; [reflexivity|]. split; [reflexivity|]. split; [reflexivity|].
  split; [reflexivity|]. split; [exact Hderef|].
  split.
  { unfold construct_encoder_config. rewrite lookup_insert_eq. simpl.
    by rewrite insert_insert_eq. }
  split.
  { intros pre k v post Hpairs Hk. unfold current. rewrite Hpairs.
    by apply write_pairs_last. }
  split.
  { intros k Hk. by apply write_pairs_other. }
  intros k v Hcur Hdefk. rewrite Hderef. intros [= Heq].
  rewrite Heq in Hcur. contradiction.
Qed.

Lemma overrides_persist_in_shared_defaults_witness :
  exists current,
    deref (EncoderConfigRef "libx264")
      (snd (construct_encoder_config "libx264" ["crf"; "18"]
              {[ "libx264" := {[ "crf" := PyInt 23 ]} ]}))
      = Some current /\
    current !! "crf" = Some (PyStr "18") /\
    construct_encoder_config "libx264" []
      (snd (construct_encoder_config "libx264" ["crf"; "18"]
              {[ "libx264" := {[ "crf" := PyInt 23 ]} ]}))
    = (Ok (EncoderConfigRef "libx264"),
       snd (construct_encoder_config "libx264" ["crf"; "18"]
              {[ "libx264" := {[ "crf" := PyInt 23 ]} ]})).
Proof.
  destruct (overrides_persist_in_shared_defaults
              {[ "libx264" := {[ "crf" := PyInt 23 ]} ]}
              (snd (construct_encoder_config "libx264" ["crf"; "18"]
                      {[ "libx264" := {[ "crf" := PyInt 23 ]} ]}))
              "libx264" ["crf"; "18"] (EncoderConfigRef "libx264"))
    as (defaults & current & _ & _ & _ & _ & Hderef & Hagain & Hlast & _).
  { vm_compute. reflexivity. }
  exists current. split; [exact Hderef|]. split; [|exact Hagain].
  apply (Hlast [] "crf" "18" []); [reflexivity|]. simpl. apply not_elem_of_nil.
Defined.

(** A call that fails on its second pair has already written the first. *)
Example failed_call_keeps_earlier_override :
  exists options',
    construct_encoder_config "libx264" ["crf"; "18"; "bogus"; "1"]
      {[ "libx264" := {[ "crf" := PyInt 23 ]} ]}
    = (Raise (UnrecognizedEncoderConfigError "libx264" "bogus"), options') /\
    exists current,
      deref (EncoderConfigRef "libx264") options' = Some current /\
      current !! "crf" = Some (PyStr "18").
Proof.
  eexists. split; [vm_compute; reflexivity|].
  eexists. split; [vm_compute; reflexivity|]. vm_compute. reflexivity.
Qed.

End EncoderConfig.

(** ** The persistence cache *)

Section Cache.
Import CompressureSystem.
Variable E : Collaborators.

Lemma compress_hit (fpath_in : string) (gop_size : Z) (encoder : string)
    (encoder_config : gmap string pyvalue) (workdir : string) (w : t)
    (record : CompressurePersistence.ArtifactRecord) :
  let c := SingleVideoCompression.mk fpath_in workdir gop_size encoder encoder_config in
  CompressurePersistence.lookup_compression (fingerprint_compression E c)
    (persistence w) = Some record ->
  exists w',
    compress E fpath_in gop_size encoder encoder_config workdir w = (Ok c, w') /\
    transcode_calls w' = transcode_calls w /\
    slice_calls w' = slice_calls w /\
    persistence w' = persistence w.
Proof.
  intros c Hhit. unfold compress, bind, makedirs, modify, get_compression. simpl.
  fold c. rewrite Hhit. eexists. split; [reflexivity|]. by simpl.
Qed.

(** A miss on which the producer and the write of the manifest succeed. *)
Lemma compress_miss_stores (fpath_in : string) (gop_size : Z) (encoder : string)
    (encoder_config : gmap string pyvalue) (workdir : string) (w : t)
    (fpath : string) :
  let c := SingleVideoCompression.mk fpath_in workdir gop_size encoder encoder_config in
  CompressurePersistence.lookup_compression (fingerprint_compression E c)
    (persistence w) = None ->
  transcode_video E c = Ok fpath ->
  manifest_write_succeeds E
    (CompressurePersistence.write_attempts (persistence w)) = true ->
  exists w',
    compress E fpath_in gop_size encoder encoder_config workdir w = (Ok c, w') /\
    transcode_calls w' = transcode_calls w ++ [c] /\
    slice_calls w' = slice_calls w /\
    CompressurePersistence.compressions (persistence w') =
      <[fingerprint_compression E c := compression_record E c]>
        (CompressurePersistence.compressions (persistence w)) /\
    CompressurePersistence.slice_sets (persistence w') =
      CompressurePersistence.slice_sets (persistence w).
Proof.
  intros c Hmiss Hok Hw.
  unfold compress, bind, makedirs, modify, get_compression,
    call_transcode_video, add_compression, on_persistence,
    CompressurePersistence.append_compression, ret.
  simpl. fold c. rewrite Hmiss, Hok. simpl. rewrite Hw. simpl.
  eexists. split; [reflexivity|]. by simpl.
Qed.

(** A miss on which the producer succeeds and the write of the manifest
    fails. *)
Lemma compress_miss_write_fails (fpath_in : string) (gop_size : Z)
    (encoder : string) (encoder_config : gmap string pyvalue)
    (workdir : string) (w : t) (fpath : string) :
  let c := SingleVideoCompression.mk fpath_in workdir gop_size encoder encoder_config in
  CompressurePersistence.lookup_compression (fingerprint_compression E c)
    (persistence w) = None ->
  transcode_video E c = Ok fpath ->
  manifest_write_succeeds E
    (CompressurePersistence.write_attempts (persistence w)) = false ->
  exists w',
    compress E fpath_in gop_size encoder encoder_config workdir w
      = (Raise PersistenceWriteError, w') /\
    transcode_calls w' = transcode_calls w ++ [c] /\
    slice_calls w' = slice_calls w /\
    CompressurePersistence.compressions (persistence w') =
      CompressurePersistence.compressions (persistence w) /\
    CompressurePersistence.slice_sets (persistence w') =
      CompressurePersistence.slice_sets (persistence w).
Proof.
  intros c Hmiss Hok Hw.
  unfold compress, bind, makedirs, modify, get_compression,
    call_transcode_video, add_compression, on_persistence,
    CompressurePersistence.append_compression, ret.
  simpl. fold c. rewrite Hmiss, Hok. simpl. rewrite Hw. simpl.
  eexists. split; [reflexivity|]. by simpl.
Qed.

(** A miss on which the producer fails. *)
Lemma compress_miss_producer_fails (fpath_in : string) (gop_size : Z)
    (encoder : string) (encoder_config : gmap string pyvalue)
    (workdir : string) (w : t) (e : exn) :
  let c := SingleVideoCompression.mk fpath_in workdir gop_size encoder encoder_config in
  CompressurePersistence.lookup_compression (fingerprint_compression E c)
    (persistence w) = None ->
  transcode_video E c = Raise e ->
  exists w',
    compress E fpath_in gop_size encoder encoder_config workdir w
      = (Raise e, w') /\
    transcode_calls w' = transcode_calls w ++ [c] /\
    slice_calls w' = slice_calls w /\
    persistence w' = persistence w.
Proof.
  intros c Hmiss Hfail.
  unfold compress, bind, makedirs, modify, get_compression, call_transcode_video.
  simpl. fold c. rewrite Hmiss, Hfail.
  eexists. split; [reflexivity|]. by simpl.
Qed.

Lemma slice_hit (c : SingleVideoCompression.t) (superframe_size : Z)
    (workdir_base : string) (w : t)
    (record : CompressurePersistence.ArtifactRecord) :
  let slicer := new_slicer E c superframe_size workdir_base in
  CompressurePersistence.lookup_slices (fingerprint_slices E c slicer)
    (persistence w) = Some record ->
  exists w',
    slice E c superframe_size workdir_base w = (Ok slicer, w') /\
    slice_calls w' = slice_calls w /\
    transcode_calls w' = transcode_calls w /\
    persistence w' = persistence w.
Proof.
  intros slicer Hhit. unfold slice, bind, makedirs, modify, get_slices. simpl.
  fold (new_slicer E c superframe_size workdir_base). fold slicer.
  rewrite Hhit. eexists. split; [reflexivity|]. by simpl.
Qed.

Lemma slice_miss_stores (c : SingleVideoCompression.t) (superframe_size : Z)
    (workdir_base : string) (w : t) (produced : list Slice) :
  let slicer := new_slicer E c superframe_size workdir_base in
  CompressurePersistence.lookup_slices (fingerprint_slices E c slicer)
    (persistence w) = None ->
  slice_video E slicer = Ok produced ->
  manifest_write_succeeds E
    (CompressurePersistence.write_attempts (persistence w)) = true ->
  exists w',
    slice E c superframe_size workdir_base w
      = (Ok (VideoSlicer.mk (VideoSlicer.fpath_in slicer)
               (VideoSlicer.superframe_size slicer)
               (VideoSlicer.workdir slicer) produced), w') /\
    slice_calls w' = slice_calls w ++ [slicer] /\
    transcode_calls w' = transcode_calls w /\
    CompressurePersistence.slice_sets (persistence w') =
      <[fingerprint_slices E c slicer := slices_record E c slicer produced]>
        (CompressurePersistence.slice_sets (persistence w)) /\
    CompressurePersistence.compressions (persistence w') =
      CompressurePersistence.compressions (persistence w).
Proof.
  intros slicer Hmiss Hok Hw.
  unfold slice, bind, makedirs, modify, get_slices,
    call_slice_video, add_slices, on_persistence,
    CompressurePersistence.append_slices, ret.
  simpl. fold (new_slicer E c superframe_size workdir_base). fold slicer.
  rewrite Hmiss, Hok. simpl. rewrite Hw. simpl.
  eexists. split; [reflexivity|]. by simpl.
Qed.

Lemma slice_miss_write_fails (c : SingleVideoCompression.t) (superframe_size : Z)
    (workdir_base : string) (w : t) (produced : list Slice) :
  let slicer := new_slicer E c superframe_size workdir_base in
  CompressurePersistence.lookup_slices (fingerprint_slices E c slicer)
    (persistence w) = None ->
  slice_video E slicer = Ok produced ->
  manifest_write_succeeds E
    (CompressurePersistence.write_attempts (persistence w)) = false ->
  exists w',
    slice E c superframe_size workdir_base w
      = (Raise PersistenceWriteError, w') /\
    slice_calls w' = slice_calls w ++ [slicer] /\
    transcode_calls w' = transcode_calls w /\
    CompressurePersistence.slice_sets (persistence w') =
      CompressurePersistence.slice_sets (persistence w) /\
    CompressurePersistence.compressions (persistence w') =
      CompressurePersistence.compressions (persistence w).
Proof.
  intros slicer Hmiss Hok Hw.
  unfold slice, bind, makedirs, modify, get_slices,
    call_slice_video, add_slices, on_persistence,
    CompressurePersistence.append_slices, ret.
  simpl. fold (new_slicer E c superframe_size workdir_base). fold slicer.
  rewrite Hmiss, Hok. simpl. rewrite Hw. simpl.
  eexists. split; [reflexivity|]. by simpl.
Qed.

Lemma slice_miss_producer_fails (c : SingleVideoCompression.t)
    (superframe_size : Z) (workdir_base : string) (w : t) (e : exn) :
  let slicer := new_slicer E c superframe_size workdir_base in
  CompressurePersistence.lookup_slices (fingerprint_slices E c slicer)
    (persistence w) = None ->
  slice_video E slicer = Raise e ->
  exists w',
    slice E c superframe_size workdir_base w = (Raise e, w') /\
    slice_calls w' = slice_calls w ++ [slicer] /\
    transcode_calls w' = transcode_calls w /\
    persistence w' = persistence w.
Proof.
  intros slicer Hmiss Hfail.
  unfold slice, bind, makedirs, modify, get_slices, call_slice_video.
  simpl. fold (new_slicer E c superframe_size workdir_base). fold slicer.
  rewrite Hmiss, Hfail.
  eexists. split; [reflexivity|]. by simpl.
Qed.


End Cache.



(** ** Runs of the sequencer *)

Section SequencerRuns.
Import VideoSliceBufferReversible.

Lemma velocity_cases (s : t) :
  (exists old, velocity s = (Ok old, s)) \/ (exists e, velocity s = (Raise e, s)).
Proof.
  unfold velocity.
  destruct (int_truediv (_velocity_numerator s) (_velocity_denominator s));
    [left|right]; by eexists.
Qed.

(** The first half of [step] touches neither deque nor the denominator nor
    the attribute [superframe_size]. *)
Lemma displacement_frame (to : option Z) (s : t) :
  buffer_forward (snd (displacement to s)) = buffer_forward s /\
  buffer_backward (snd (displacement to s)) = buffer_backward s /\
  _velocity_denominator (snd (displacement to s)) = _velocity_denominator s /\
  superframe_size (snd (displacement to s)) = superframe_size s.
Proof.
  destruct to as [j|].
  - destruct (velocity_cases s) as [[old Hv]|[e Hv]].
    + by rewrite (displacement_to s j old Hv).
    + by rewrite (displacement_unread s j e Hv).
  - unfold displacement, bind, get_superframe_size, velocity, lift, ret.
    destruct (superframe_size s) as [sf|] eqn:E; [|by simpl].
    destruct (int_truediv _ _) as [v|e]; [|by simpl].
    destruct (number_mul _ _) as [p|e]; [|by simpl].
    by destruct (py_int p).
Qed.

(** The second half rotates both deques by the same amount, or neither. *)
Lemma move_frame (n : Z) (s : t) :
  (exists k, buffer_forward (snd (move n s)) = rotate k (buffer_forward s) /\
             buffer_backward (snd (move n s)) = rotate k (buffer_backward s)) /\
  _velocity_denominator (snd (move n s)) = _velocity_denominator s /\
  superframe_size (snd (move n s)) = superframe_size s.
Proof.
  destruct (decide (- 2 ^ 63 < n <= 2 ^ 63)) as [Hn|Hn].
  - rewrite (move_fits n s Hn), visible_head_state. simpl.
    split; [by exists (- n)|by split].
  - rewrite (move_overflow n s Hn). simpl.
    split; [exists 0; by rewrite !rotate_0|by split].
Qed.

Lemma step_frame (to : option Z) (s : t) :
  (exists k, buffer_forward (snd (step to s)) = rotate k (buffer_forward s) /\
             buffer_backward (snd (step to s)) = rotate k (buffer_backward s)) /\
  _velocity_denominator (snd (step to s)) = _velocity_denominator s /\
  superframe_size (snd (step to s)) = superframe_size s.
Proof.
  unfold step, bind.
  pose proof (displacement_frame to s) as (Hf & Hb & Hd & Hsf).
  destruct (displacement to s) as [[n|e] s1]; simpl in Hf, Hb, Hd, Hsf.
  - pose proof (move_frame n s1) as ((k & Hf' & Hb') & Hd' & Hsf').
    split; [exists k|]; split; congruence.
  - simpl. split; [exists 0; rewrite !rotate_0|]; split; congruence.
Qed.

(** X1.  Whatever its argument, and whether it returns or raises, [step]
    leaves in each deque a rotation of what it held: the same slices, as many
    as before, so [len] does not change. *)
Theorem step_preserves_rings (to : option Z) (s : t) :
  buffer_forward (snd (step to s)) ≡ₚ buffer_forward s /\
  buffer_backward (snd (step to s)) ≡ₚ buffer_backward s /\
  len (snd (step to s)) = len s /\
  length (buffer_backward (snd (step to s))) = length (buffer_backward s).
Proof.
  destruct (step_frame to s) as ((n & Hf & Hb) & _). unfold len. rewrite Hf, Hb.
  split; [apply rotate_Permutation|]. split; [apply rotate_Permutation|].
  split; apply length_rotate.
Qed.

(** X2.  On a sequencer whose velocity denominator is zero, that is one built
    from a forward slicer of superframe size 0, reading the velocity, setting
    it, [step(to=j)] and [accelerate(degree)] all raise [ZeroDivisionError]
    and change nothing. *)
Theorem zero_denominator_raises (s : t) (j degree : Z) (v : number) :
  _velocity_denominator s = 0 ->
  velocity s = (Raise ZeroDivisionError, s) /\
  set_velocity v s = (Raise ZeroDivisionError, s) /\
  step (Some j) s = (Raise ZeroDivisionError, s) /\
  accelerate degree s = (Raise ZeroDivisionError, s).
Proof.
  intros Hd.
  assert (Hv : velocity s = (Raise ZeroDivisionError, s))
    by (by apply velocity_zero_denominator).
  split; [exact Hv|].
  split; [by apply set_velocity_unread|].
  split; [by apply step_to_unread|].
  unfold accelerate, bind. by rewrite Hv.
Qed.

Lemma zero_denominator_raises_witness :
  _velocity_denominator (mk ["a"] ["a"] true 0 0 0 None) = 0 /\
  step (Some 3) (mk ["a"] ["a"] true 0 0 0 None)
    = (Raise ZeroDivisionError, mk ["a"] ["a"] true 0 0 0 None).
Proof.
  assert (Hd : _velocity_denominator (mk ["a"] ["a"] true 0 0 0 None) = 0)
    by reflexivity.
  split; [exact Hd|].
  exact (proj1 (proj2 (proj2 (zero_denominator_raises _ 3 1 (Int 1) Hd)))).
Defined.

(** X3.  On a sequencer with both deques empty and a velocity that can be
    read, [step(to=j)] never returns.  When the displacement is one that
    [deque.rotate] accepts it raises [IndexError] on reading the head, but only
    after it has stored the new velocity and moved the cursor: the cursor
    index is [j] afterwards.  When the displacement is beyond a C [ssize_t]
    it raises [OverflowError] in [deque.rotate], with the new velocity stored
    and the cursor where it was. *)
Theorem step_to_empty_raises_after_moving (s : t) (j : Z) (old : pyfloat) :
  velocity s = (Ok old, s) ->
  buffer_forward s = [] ->
  buffer_backward s = [] ->
  (- 2 ^ 63 < j - index s <= 2 ^ 63 ->
   step (Some j) s = (Raise IndexError, stepped_to old j s) /\
   index (stepped_to old j s) = j /\
   _velocity_numerator (stepped_to old j s)
     = Z.sgn (j - index s) * _velocity_denominator s) /\
  (~ (- 2 ^ 63 < j - index s <= 2 ^ 63) ->
   step (Some j) s = (Raise OverflowError, retargeted old j s) /\
   index (retargeted old j s) = index s /\
   _velocity_numerator (retargeted old j s)
     = Z.sgn (j - index s) * _velocity_denominator s).
Proof.
  intros Hv Hf Hb. split.
  - intros Hn. split; [|by split].
    rewrite (step_to_defined s j old Hv Hn).
    unfold visible_head, bind, get.
    rewrite (velocity_stepped_to s j old (velocity_read_nonzero s old Hv)).
    simpl. rewrite Hf, Hb. simpl.
    repeat case_match; reflexivity.
  - intros Hn. split; [|by split]. by apply step_to_overflow.
Qed.

Lemma step_to_empty_raises_after_moving_witness :
  (step (Some 5) (mk [] [] true 0 6 6 None)
     = (Raise IndexError, mk [] [] true 5 6 6 None)) /\
  (step (Some (- 2 ^ 63)) (mk [] [] true 0 6 6 None)
     = (Raise OverflowError, mk [] [] true 0 (-6) 6 None)).
Proof.
  assert (Hv : velocity (mk [] [] true 0 6 6 None)
               = (Ok float_one, mk [] [] true 0 6 6 None)) by reflexivity.
  split.
  - destruct (step_to_empty_raises_after_moving _ 5 _ Hv eq_refl eq_refl)
      as [Hin _].
    destruct Hin as (Hrun & _); [simpl; lia|exact Hrun].
  - destruct (step_to_empty_raises_after_moving _ (- 2 ^ 63) _ Hv eq_refl eq_refl)
      as [_ Hout].
    destruct Hout as (Hrun & _); [simpl; lia|exact Hrun].
Defined.

(** X4.  With a velocity that can be read, both deques non-empty and a
    displacement that [deque.rotate] accepts, [step(to=j)] from cursor index
    [i] returns: for [j > i] the slice at position [(j - i) mod len] of the
    forward deque; for [j < i] the slice at position [(j - i) mod len] of the
    backward deque; for [j = i] the head of the deque that the direction
    computed from the previous velocity selects. *)
Theorem step_to_head_by_delta (s : t) (j : Z) (old : pyfloat) :
  velocity s = (Ok old, s) ->
  - 2 ^ 63 < j - index s <= 2 ^ 63 ->
  buffer_forward s <> [] ->
  buffer_backward s <> [] ->
  exists h s',
    step (Some j) s = (Ok h, s') /\
    (index s < j ->
     buffer_forward s
       !! Z.to_nat ((j - index s) mod Z.of_nat (length (buffer_forward s)))
     = Some h) /\
    (j < index s ->
     buffer_backward s
       !! Z.to_nat ((j - index s) mod Z.of_nat (length (buffer_backward s)))
     = Some h) /\
    (j = index s ->
     (if lagged_direction (forward s) old then head (buffer_forward s)
      else head (buffer_backward s)) = Some h).
Proof.
  intros Hv Hn Hf Hb.
  destruct (step_to_returns s j old Hv Hn Hf Hb) as (h & Hrun & Hh).
  exists h, (stepped_to old j s). split; [exact Hrun|].
  rewrite !rotate_head, Z.opp_involutive in Hh by assumption.
  split; [|split].
  - intros Hlt.
    destruct (Z.leb_spec 0 (j - index s)); [|lia].
    destruct (Z.ltb_spec 0 (j - index s)); [|lia].
    by destruct (lagged_direction (forward s) old).
  - intros Hlt.
    destruct (Z.leb_spec 0 (j - index s)); [lia|].
    destruct (Z.ltb_spec 0 (j - index s)); [lia|].
    by destruct (lagged_direction (forward s) old).
  - intros ->. rewrite Z.sub_diag in Hh. simpl in Hh.
    rewrite !Z.mod_0_l in Hh by (destruct (buffer_forward s), (buffer_backward s);
                                 simpl; try done; lia).
    rewrite !head_lookup. by destruct (lagged_direction (forward s) old).
Qed.

Lemma step_to_head_by_delta_witness :
  exists s',
    step (Some 1) (mk ["a"; "b"; "c"] ["c"; "b"; "a"] false 3 (-6) 6 None)
      = (Ok "b", s').
Proof.
  assert (Hv : velocity (mk ["a"; "b"; "c"] ["c"; "b"; "a"] false 3 (-6) 6 None)
               = (Ok float_minus_one,
                  mk ["a"; "b"; "c"] ["c"; "b"; "a"] false 3 (-6) 6 None))
    by reflexivity.
  destruct (step_to_head_by_delta
              (mk ["a"; "b"; "c"] ["c"; "b"; "a"] false 3 (-6) 6 None) 1 _ Hv)
    as (h & s' & Hrun & _ & Hback & _); [simpl; lia|done|done|].
  exists s'. rewrite Hrun.
  assert (Hh : Some "b" = Some h) by (rewrite <- Hback; [reflexivity|simpl; lia]).
  by injection Hh as <-.
Defined.

(** X6.  The direction lags the movement by one step: on a sequencer with a
    non-zero denominator whose velocity can be read, after two successive
    [step(to=...)] calls the direction is Forward or Backward according to
    the sign of the first displacement alone (zero keeps Forward and leaves
    Backward only if positive); the second target plays no part, and neither
    does it matter whether [deque.rotate] accepted the displacements.  When
    the velocity cannot be read, the quotient being too large for a float,
    both calls raise [OverflowError] and the direction stays as it was. *)
Theorem direction_follows_previous_step (s : t) (j1 j2 : Z) :
  _velocity_denominator s <> 0 ->
  (forall old, velocity s = (Ok old, s) ->
     forward (snd (step (Some j1) s)) = lagged_direction (forward s) old /\
     forward (snd (step (Some j2) (snd (step (Some j1) s)))) =
       (if lagged_direction (forward s) old
        then 0 <=? j1 - index s else 0 <? j1 - index s)) /\
  (forall e, velocity s = (Raise e, s) ->
     e = OverflowError /\
     step (Some j1) s = (Raise OverflowError, s) /\
     step (Some j2) (snd (step (Some j1) s)) = (Raise OverflowError, s)).
Proof.
  intros Hd. split.
  - intros old Hv.
    destruct (sign_float_tests (j1 - index s) (_velocity_denominator s))
      as [Hge Hgt].
    assert (Hsecond : forall s1 : t,
      velocity s1
        = (Ok (sign_float (j1 - index s) (_velocity_denominator s)), s1) ->
      forward s1 = lagged_direction (forward s) old ->
      forward (snd (step (Some j2) s1)) =
        (if lagged_direction (forward s) old
         then 0 <=? j1 - index s else 0 <? j1 - index s)).
    { intros s1 Hv1 Hf1.
      destruct (decide (- 2 ^ 63 < j2 - index s1 <= 2 ^ 63)) as [Hn|Hn].
      - rewrite (step_to_defined s1 j2 _ Hv1 Hn), visible_head_state. simpl.
        unfold lagged_direction at 1. by rewrite Hf1, Hge, Hgt.
      - rewrite (step_to_overflow s1 j2 _ Hv1 Hn). simpl.
        unfold lagged_direction at 1. by rewrite Hf1, Hge, Hgt. }
    destruct (decide (- 2 ^ 63 < j1 - index s <= 2 ^ 63)) as [Hn|Hn].
    + rewrite (step_to_defined s j1 old Hv Hn), visible_head_state.
      split; [reflexivity|].
      apply Hsecond; [by apply velocity_stepped_to|reflexivity].
    + rewrite (step_to_overflow s j1 old Hv Hn). simpl.
      split; [reflexivity|].
      apply Hsecond; [by apply velocity_retargeted|reflexivity].
  - intros e Hv.
    assert (He : e = OverflowError).
    { unfold velocity in Hv. injection Hv as Hv.
      exact (int_truediv_raises _ _ e Hd Hv). }
    subst e. split; [reflexivity|].
    rewrite (step_to_unread s j1 _ Hv). simpl.
    split; [reflexivity|]. by apply step_to_unread.
Qed.

Lemma direction_follows_previous_step_witness :
  forward (snd (step (Some 9)
                  (snd (step (Some (-2)) (mk ["a"; "b"] ["b"; "a"] true 0 6 6 None)))))
  = false.
Proof.
  assert (Hd : _velocity_denominator (mk ["a"; "b"] ["b"; "a"] true 0 6 6 None) <> 0)
    by (simpl; lia).
  assert (Hv : velocity (mk ["a"; "b"] ["b"; "a"] true 0 6 6 None)
               = (Ok float_one, mk ["a"; "b"] ["b"; "a"] true 0 6 6 None))
    by reflexivity.
  destruct (direction_follows_previous_step _ (-2) 9 Hd) as [Hread _].
  destruct (Hread _ Hv) as [_ H].
  rewrite H. reflexivity.
Defined.

(** *** Runs of target steps *)

(** A run of target steps over non-empty deques, each displacement one that
    [deque.rotate] accepts, returns one head per target and leaves the cursor
    at the last target, each deque rotated by the total displacement. *)
Lemma step_each_defined (timeline : list Z) :
  forall (s : t) (old : pyfloat),
    velocity s = (Ok old, s) ->
    buffer_forward s <> [] ->
    buffer_backward s <> [] ->
    - 2 ^ 62 < index s < 2 ^ 62 ->
    Forall (fun j => - 2 ^ 62 < j < 2 ^ 62) timeline ->
    exists heads s',
      step_each timeline s = (Ok heads, s') /\
      length heads = length timeline /\
      index s' = default (index s) (last timeline) /\
      buffer_forward s' = rotate (- (index s' - index s)) (buffer_forward s) /\
      buffer_backward s' = rotate (- (index s' - index s)) (buffer_backward s) /\
      _velocity_denominator s' = _velocity_denominator s /\
      superframe_size s' = superframe_size s /\
      Forall (fun h => h ∈ buffer_forward s \/ h ∈ buffer_backward s) heads.
Proof.
  induction timeline as [|j rest IH]; intros s old Hv Hf Hb Hi Hall.
  - exists [], s. split; [reflexivity|]. split; [reflexivity|].
    split; [reflexivity|]. rewrite Z.sub_diag. simpl.
    by rewrite !rotate_0.
  - apply Forall_cons in Hall as [Hj Hall].
    assert (Hn : - 2 ^ 63 < j - index s <= 2 ^ 63) by lia.
    pose proof (velocity_read_nonzero s old Hv) as Hd.
    destruct (step_to_returns s j old Hv Hn Hf Hb) as (h & Hrun & Hh).
    destruct (IH (stepped_to old j s) _ (velocity_stepped_to s j old Hd)
                (rotate_nonempty _ _ Hf) (rotate_nonempty _ _ Hb) Hj Hall)
      as (heads & s' & Hrest & Hlen & Hidx & Hbf & Hbb & Hden & Hsf & Hin).
    exists (h :: heads), s'. simpl. unfold bind at 1. rewrite Hrun.
    unfold bind at 1. rewrite Hrest. unfold ret.
    split; [reflexivity|]. split; [simpl; by rewrite Hlen|].
    simpl in Hidx, Hbf, Hbb, Hden, Hsf, Hin.
    split.
    { rewrite Hidx, last_cons. by destruct (last rest). }
    split.
    { rewrite Hbf, rotate_rotate. f_equal. lia. }
    split.
    { rewrite Hbb, rotate_rotate. f_equal. lia. }
    split; [exact Hden|]. split; [exact Hsf|].
    constructor.
    + destruct (if lagged_direction (forward s) old then _ else _);
        symmetry in Hh; apply head_rotate_elem in Hh; auto.
    + eapply Forall_impl; [exact Hin|]. intros x [Hx|Hx]; [left|right].
      * by rewrite (rotate_Permutation (- (j - index s))) in Hx.
      * by rewrite (rotate_Permutation (- (j - index s))) in Hx.
Qed.

Lemma rev_nonempty {A} (l : list A) : l <> [] -> rev l <> [].
Proof.
  intros Hl H. apply Hl. apply (f_equal (@rev _)) in H.
  by rewrite rev_involutive in H.
Qed.

Lemma run_steps_from_init (f b : VideoSlicer.t) (s0 : t) (timeline : list Z) :
  init f b = Ok s0 ->
  VideoSlicer.superframe_size f <> 0 ->
  VideoSlicer.slices f <> [] ->
  VideoSlicer.slices b <> [] ->
  Forall (fun j => - 2 ^ 62 < j < 2 ^ 62) timeline ->
  exists heads s,
    step_each timeline s0 = (Ok heads, s) /\
    length heads = length timeline /\
    Forall (fun h => h ∈ VideoSlicer.slices f \/ h ∈ VideoSlicer.slices b) heads /\
    index s = default 0 (last timeline).
Proof.
  intros Hinit Hsf Hf Hb Hall.
  destruct (init_velocity_one f b s0 Hsf Hinit) as [Hv _].
  injection Hinit as <-.
  pose proof (rev_nonempty _ Hb) as Hb'.
  destruct (step_each_defined timeline _ _ Hv Hf Hb' ltac:(simpl; lia) Hall)
    as (heads & s & Hrun & Hlen & Hidx & _ & _ & _ & _ & Hin).
  exists heads, s. simpl in Hidx, Hin.
  split; [exact Hrun|]. split; [exact Hlen|]. split; [|exact Hidx].
  eapply Forall_impl; [exact Hin|]. intros h [Hh|Hh]; [by left|right].
  apply list_elem_of_In. apply in_rev. by apply list_elem_of_In.
Qed.

(** X5.  On a sequencer built from non-empty slice sets with a non-zero
    superframe size, any run of target steps whose targets lie strictly
    between [-2^62] and [2^62] (so that no displacement leaves the range of
    a 64-bit integer, as a target or as an argument of [deque.rotate])
    returns one head per target, each of them a slice of one of the two
    slice sets, and leaves the cursor at the last target.  The forward deque
    then is the forward slice set rotated by the cursor index, so its head is
    the forward slice number [index mod len]; likewise the backward deque and
    the reversed backward slice set. *)
Theorem run_tracks_cursor (f b : VideoSlicer.t) (s0 : t) (timeline : list Z) :
  init f b = Ok s0 ->
  VideoSlicer.superframe_size f <> 0 ->
  VideoSlicer.slices f <> [] ->
  VideoSlicer.slices b <> [] ->
  Forall (fun j => - 2 ^ 62 < j < 2 ^ 62) timeline ->
  exists heads s,
    step_each timeline s0 = (Ok heads, s) /\
    length heads = length timeline /\
    Forall (fun h => h ∈ VideoSlicer.slices f \/ h ∈ VideoSlicer.slices b) heads /\
    index s = default 0 (last timeline) /\
    buffer_forward s = rotate (- index s) (VideoSlicer.slices f) /\
    buffer_backward s = rotate (- index s) (rev (VideoSlicer.slices b)) /\
    head (buffer_forward s) =
      VideoSlicer.slices f
        !! Z.to_nat (index s mod Z.of_nat (length (VideoSlicer.slices f))) /\
    head (buffer_backward s) =
      rev (VideoSlicer.slices b)
        !! Z.to_nat (index s mod Z.of_nat (length (VideoSlicer.slices b))).
Proof.
  intros Hinit Hsf Hf Hb Hall.
  destruct (init_velocity_one f b s0 Hsf Hinit) as [Hv _].
  injection Hinit as <-.
  pose proof (rev_nonempty _ Hb) as Hb'.
  destruct (step_each_defined timeline _ _ Hv Hf Hb' ltac:(simpl; lia) Hall)
    as (heads & s & Hrun & Hlen & Hidx & Hbf & Hbb & _ & _ & Hin).
  exists heads, s.
  simpl in Hidx, Hbf, Hbb, Hin. rewrite Z.sub_0_r in Hbf, Hbb.
  split; [exact Hrun|]. split; [exact Hlen|].
  split.
  { eapply Forall_impl; [exact Hin|]. intros h [Hh|Hh]; [by left|right].
    apply list_elem_of_In. apply in_rev. by apply list_elem_of_In. }
  split; [exact Hidx|]. split; [exact Hbf|]. split; [exact Hbb|].
  rewrite Hbf, Hbb, !rotate_head, Z.opp_involutive, length_rev by assumption.
  by split.
Qed.

Lemma run_tracks_cursor_witness :
  exists heads s,
    step_each [2; 0; 5]
      (mk ["a"; "b"; "c"] ["z"; "y"; "x"] true 0 6 6 None) = (Ok heads, s) /\
    index s = 5 /\
    head (buffer_forward s) = Some "c".
Proof.
  destruct (run_tracks_cursor
              (VideoSlicer.mk "f.avi" 6 "fwd" ["a"; "b"; "c"])
              (VideoSlicer.mk "b.avi" 6 "bwd" ["x"; "y"; "z"])
              (mk ["a"; "b"; "c"] ["z"; "y"; "x"] true 0 6 6 None)
              [2; 0; 5] eq_refl)
    as (heads & s & Hrun & _ & _ & Hidx & _ & _ & Hhead & _);
    [simpl; lia|done|done|repeat constructor; lia|].
  exists heads, s. split; [exact Hrun|]. split; [exact Hidx|].
  rewrite Hhead, Hidx. reflexivity.
Defined.

(** *** The velocity-driven paths *)

Lemma step_keeps_attribute (to : option Z) (s : t) :
  superframe_size (snd (step to s)) = superframe_size s.
Proof. by destruct (step_frame to s) as (_ & _ & Hsf). Qed.

Lemma step_each_keeps_attribute (timeline : list Z) :
  forall s : t, superframe_size (snd (step_each timeline s)) = superframe_size s.
Proof.
  induction timeline as [|j rest IH]; intros s; [reflexivity|].
  simpl. unfold bind at 1.
  pose proof (step_keeps_attribute (Some j) s) as Hstep.
  destruct (step (Some j) s) as [[h|e] s1]; simpl in Hstep; [|by simpl].
  unfold bind at 1. pose proof (IH s1) as Hrest.
  destruct (step_each rest s1) as [[hs|e] s2]; simpl in Hrest |- *; congruence.
Qed.

(** X7.  After construction and any run of target steps, complete or cut
    short by an exception, the attribute [superframe_size] still does not
    exist: the velocity-driven [step()] and every [accelerate(degree)] raise
    and change nothing. *)
Theorem velocity_driven_calls_raise_after_any_run
    (f b : VideoSlicer.t) (s0 : t) (timeline : list Z) (degree : Z) :
  init f b = Ok s0 ->
  exists e1 e2,
    step None (snd (step_each timeline s0))
      = (Raise e1, snd (step_each timeline s0)) /\
    accelerate degree (snd (step_each timeline s0))
      = (Raise e2, snd (step_each timeline s0)).
Proof.
  intros [= <-].
  pose proof (step_each_keeps_attribute timeline
                (mk (VideoSlicer.slices f) (rev (VideoSlicer.slices b)) true 0
                    (VideoSlicer.superframe_size f)
                    (VideoSlicer.superframe_size f) None)) as Hattr.
  simpl in Hattr.
  set (s := snd (step_each timeline _)) in *.
  assert (Hstep : step None s = (Raise (AttributeError "superframe_size"), s)).
  { unfold step, displacement, bind, get_superframe_size. by rewrite Hattr. }
  exists (AttributeError "superframe_size").
  destruct (velocity_cases s) as [[old Hv]|[e Hv]].
  - exists (AttributeError "superframe_size"). split; [exact Hstep|].
    unfold accelerate, bind. rewrite Hv.
    unfold get_superframe_size. by rewrite Hattr.
  - exists e. split; [exact Hstep|].
    unfold accelerate, bind. by rewrite Hv.
Qed.

Lemma velocity_driven_calls_raise_after_any_run_witness :
  exists e1 e2,
    step None (snd (step_each [3; 1]
                      (mk ["a"; "b"] ["d"; "c"] true 0 6 6 None)))
      = (Raise e1, snd (step_each [3; 1]
                          (mk ["a"; "b"] ["d"; "c"] true 0 6 6 None))) /\
    accelerate 1 (snd (step_each [3; 1]
                         (mk ["a"; "b"] ["d"; "c"] true 0 6 6 None)))
      = (Raise e2, snd (step_each [3; 1]
                          (mk ["a"; "b"] ["d"; "c"] true 0 6 6 None))).
Proof.
  exact (velocity_driven_calls_raise_after_any_run
           (VideoSlicer.mk "f.avi" 6 "fwd" ["a"; "b"])
           (VideoSlicer.mk "b.avi" 6 "bwd" ["c"; "d"])
           (mk ["a"; "b"] ["d"; "c"] true 0 6 6 None) [3; 1] 1 eq_refl).
Defined.

End SequencerRuns.

(** ** More on the timeline *)

Section TimelineShape.
Local Open Scope R_scope.

Lemma astype_int_0 : astype_int (Finite 0) = 0%Z.
Proof.
  assert (H : (0 <= astype_int (Finite 0) <= 0)%Z)
    by (apply astype_int_range; [lia|lra]).
  lia.
Qed.

Lemma linspace_first (stop : R) (num : Z) :
  (1 <= num)%Z ->
  exists ts, linspace 0 (Finite stop) num = Ok (Finite 0 :: ts) /\
             length ts = Z.to_nat (num - 1).
Proof.
  intros Hn. unfold linspace. destruct (Z.ltb_spec num 0); [lia|].
  destruct (Z.to_nat num) as [|n] eqn:En; [lia|].
  simpl. eexists. split.
  - do 3 f_equal. lra.
  - rewrite length_map, length_seq. lia.
Qed.

Lemma first_target_zero (c : Z) (ts : list float64) :
  map astype_int
    (mirror_negative (map (fun t => times_int c (np_sin t)) (Finite 0 :: ts)))
  = 0%Z :: map astype_int
             (mirror_negative (map (fun t => times_int c (np_sin t)) ts)).
Proof.
  rewrite !targets_map. cbn [flat_map]. rewrite target_of_finite.
  by rewrite sin_0, Rmult_0_l, Rabs_R0, astype_int_0.
Qed.

Lemma generate_first_zero (superframe_size len_lvb n_superframes : Z)
    (frequency : pyfloat) (stop : R) :
  float64_of_float (float_mul two_pi frequency) = Finite stop ->
  (1 <= n_superframes)%Z ->
  exists rest,
    generate_timeline_function superframe_size len_lvb n_superframes
      "sinusoid" frequency = Ok (0%Z :: rest).
Proof.
  intros Hstop Hn.
  destruct (linspace_first stop n_superframes Hn) as (ts & Hts & _).
  rewrite <- Hstop in Hts.
  destruct (timeline_of_samples superframe_size len_lvb _ _ _ Hts) as [H1 _].
  eexists. rewrite H1. by rewrite first_target_zero.
Qed.

(** X8.  With at least one point, a buffer length of magnitude at most
    [2^53] and a frequency whose product with [2 * np.pi] is a finite float,
    the timeline of either waveform starts at target 0; it has as many
    targets as points were asked for. *)
Theorem timeline_starts_at_zero (superframe_size len_lvb n_superframes : Z)
    (frequency : pyfloat) (stop : R) :
  float64_of_float (float_mul two_pi frequency) = Finite stop ->
  (- 2 ^ 53 <= len_lvb <= 2 ^ 53)%Z ->
  (1 <= n_superframes)%Z ->
  (exists rest,
     generate_timeline_function superframe_size len_lvb n_superframes
       "sinusoid" frequency = Ok (0%Z :: rest) /\
     length rest = Z.to_nat (n_superframes - 1)) /\
  (exists rest,
     generate_timeline_function superframe_size len_lvb n_superframes
       "compound-sinusoid" frequency = Ok (0%Z :: rest) /\
     length rest = Z.to_nat (n_superframes - 1)).
Proof.
  intros Hstop _ Hn.
  destruct (linspace_first stop n_superframes Hn) as (ts & Hts & Hlen).
  rewrite <- Hstop in Hts.
  destruct (timeline_of_samples superframe_size len_lvb _ _ _ Hts) as [H1 H2].
  split; eexists;
    (split; [first [rewrite H1 | rewrite H2]; by rewrite first_target_zero|]);
    unfold mirror_negative; by rewrite !length_map.
Qed.

Lemma timeline_starts_at_zero_witness :
  exists rest,
    generate_timeline_function 6 50 10 "sinusoid"
      (S754_finite false 4503599627370496 (-53)) = Ok (0%Z :: rest) /\
    length rest = 9%nat.
Proof.
  assert (Hmul : float_mul two_pi (S754_finite false 4503599627370496 (-53))
                 = S754_finite false 7074237752028440 (-51))
    by (vm_compute; reflexivity).
  assert (Hstop : float64_of_float
                    (float_mul two_pi (S754_finite false 4503599627370496 (-53)))
                  = Finite (IZR 7074237752028440 * powerRZ 2 (-51)))
    by (by rewrite Hmul).
  assert (Hlen : (- 2 ^ 53 <= 50 <= 2 ^ 53)%Z) by lia.
  assert (H : (1 <= 10)%Z) by lia.
  exact (proj1 (timeline_starts_at_zero 6 50 10 _ _ Hstop Hlen H)).
Defined.

(** A negative point count makes the generator fail with [ValueError] for
    both waveforms, and a count of zero yields the empty timeline. *)
Lemma timeline_degenerate_counts (superframe_size len_lvb n_superframes : Z)
    (frequency : pyfloat) :
  ((n_superframes < 0)%Z ->
   generate_timeline_function superframe_size len_lvb n_superframes
     "sinusoid" frequency = Raise ValueError /\
   generate_timeline_function superframe_size len_lvb n_superframes
     "compound-sinusoid" frequency = Raise ValueError) /\
  (n_superframes = 0%Z ->
   generate_timeline_function superframe_size len_lvb n_superframes
     "sinusoid" frequency = Ok [] /\
   generate_timeline_function superframe_size len_lvb n_superframes
     "compound-sinusoid" frequency = Ok []).
Proof.
  split.
  - intros Hn. apply timeline_raises. unfold linspace.
    destruct (Z.ltb_spec n_superframes 0); [reflexivity|lia].
  - intros ->.
    assert (Hts : linspace 0 (float64_of_float (float_mul two_pi frequency)) 0
                  = Ok []).
    { generalize (float64_of_float (float_mul two_pi frequency)).
      intros stop. by destruct stop. }
    exact (timeline_of_samples superframe_size len_lvb 0 frequency [] Hts).
Qed.

End TimelineShape.

(** ** The assembly of the frame list *)

Section Assembly.
Import VideoSliceBufferReversible.

Lemma init_shape (f b : VideoSlicer.t) (s0 : t) :
  init f b = Ok s0 ->
  s0 = mk (VideoSlicer.slices f) (rev (VideoSlicer.slices b)) true 0
          (VideoSlicer.superframe_size f) (VideoSlicer.superframe_size f) None.
Proof. by intros [= <-]. Qed.

(** The run of [assemble_video_list] when it succeeds: the timeline it
    generates, the heads that the steps return and the state they leave. *)
Lemma assemble_video_list_runs (f b : VideoSlicer.t) (s0 : t)
    (superframe_size : Z) (frequency : pyfloat) (stop : R)
    (n_superframes : Z) (x : Slice) (fs : list Slice) :
  init f b = Ok s0 ->
  VideoSlicer.superframe_size f <> 0 ->
  VideoSlicer.slices f = x :: fs ->
  VideoSlicer.slices b <> [] ->
  Z.of_nat (length (VideoSlicer.slices f)) <= 2 ^ 53 ->
  float64_of_float (float_mul two_pi frequency) = Finite stop ->
  1 <= n_superframes ->
  exists timeline heads s,
    generate_timeline_function superframe_size (Z.of_nat (len s0))
      (n_superframes - 1) "sinusoid" frequency = Ok timeline /\
    length timeline = Z.to_nat (n_superframes - 1) /\
    Forall (fun z => 0 <= z <= Z.of_nat (length (VideoSlicer.slices f)) - 1)
           timeline /\
    step_each timeline s0 = (Ok heads, s) /\
    length heads = length timeline /\
    Forall (fun h => h ∈ VideoSlicer.slices f \/ h ∈ VideoSlicer.slices b) heads /\
    index s = default 0 (last timeline) /\
    assemble_video_list superframe_size frequency n_superframes s0
      = (Ok (x :: heads), s).
Proof.
  intros Hinit Hsf Ef Hb Hmax Hstop Hn.
  pose proof (init_shape f b s0 Hinit) as Hs0.
  assert (Hl : Z.of_nat (len s0) = Z.of_nat (length (VideoSlicer.slices f)))
    by (by rewrite Hs0).
  assert (Hlen : 1 <= Z.of_nat (len s0) <= 2 ^ 53)
    by (rewrite Hl; rewrite Ef in *; simpl length in *; lia).
  destruct (sinusoid_timeline_defined superframe_size (Z.of_nat (len s0))
              (n_superframes - 1) frequency stop Hstop Hlen)
    as (timeline & Hgen & Hlent & Hbound); [lia|].
  rewrite Hl in Hbound.
  assert (Hf' : VideoSlicer.slices f <> []) by (by rewrite Ef).
  assert (Hfit : Forall (fun j => - 2 ^ 62 < j < 2 ^ 62) timeline).
  { eapply Forall_impl; [exact Hbound|]. simpl. intros j Hj. lia. }
  destruct (run_steps_from_init f b s0 timeline Hinit Hsf Hf' Hb Hfit) as
    (heads & s & Hrun & Hlenh & Hin & Hidx).
  exists timeline, heads, s.
  split; [exact Hgen|]. split; [exact Hlent|]. split; [exact Hbound|].
  split; [exact Hrun|]. split; [exact Hlenh|]. split; [exact Hin|].
  split; [exact Hidx|].
  unfold assemble_video_list, bind at 1.
  rewrite (init_state_head f b s0 x fs Ef Hinit).
  unfold bind at 1, get. rewrite Hgen.
  unfold bind. rewrite Hrun. reflexivity.
Qed.

(** X9.  On a sequencer built from non-empty slice sets (at most [2^53]
    forward slices) with a non-zero superframe size, for a frequency whose
    product with [2 * np.pi] is a finite float and at least one superframe
    asked for, the assembly returns a frame list of exactly [n_superframes]
    slices, each taken from one of the two slice sets and the first of them
    the first forward slice; the cursor ends inside [0, len - 1]. *)
Theorem assemble_video_list_succeeds (f b : VideoSlicer.t) (s0 : t)
    (superframe_size : Z) (frequency : pyfloat) (stop : R)
    (n_superframes : Z) :
  init f b = Ok s0 ->
  VideoSlicer.superframe_size f <> 0 ->
  VideoSlicer.slices f <> [] ->
  VideoSlicer.slices b <> [] ->
  Z.of_nat (length (VideoSlicer.slices f)) <= 2 ^ 53 ->
  float64_of_float (float_mul two_pi frequency) = Finite stop ->
  1 <= n_superframes ->
  exists video_list s,
    assemble_video_list superframe_size frequency n_superframes s0
      = (Ok video_list, s) /\
    length video_list = Z.to_nat n_superframes /\
    head video_list = head (VideoSlicer.slices f) /\
    Forall (fun h => h ∈ VideoSlicer.slices f \/ h ∈ VideoSlicer.slices b)
           video_list /\
    0 <= index s <= Z.of_nat (length (VideoSlicer.slices f)) - 1.
Proof.
  intros Hinit Hsf Hf Hb Hmax Hstop Hn.
  destruct (VideoSlicer.slices f) as [|x fs] eqn:Ef; [done|].
  destruct (assemble_video_list_runs f b s0 superframe_size frequency stop
              n_superframes x fs Hinit Hsf Ef Hb)
    as (timeline & heads & s & _ & Hlent & Hbound & _ & Hlenh & Hin & Hidx & Hasm);
    [by rewrite Ef|exact Hstop|exact Hn|].
  rewrite Ef in Hin, Hbound.
  exists (x :: heads), s.
  split; [exact Hasm|].
  split; [simpl; rewrite Hlenh, Hlent; lia|].
  split; [reflexivity|].
  split.
  { constructor; [left; apply list_elem_of_here|exact Hin]. }
  rewrite Hidx.
  destruct (last timeline) as [j|] eqn:El; simpl; [|simpl length; lia].
  apply last_Some_elem_of in El.
  rewrite Forall_forall in Hbound. by apply Hbound.
Qed.

Lemma assemble_video_list_succeeds_witness :
  exists video_list s,
    assemble_video_list 6 (S754_finite false 4503599627370496 (-53)) 4
      (mk ["a"; "b"; "c"] ["z"; "y"; "x"] true 0 6 6 None) = (Ok video_list, s) /\
    length video_list = 4%nat.
Proof.
  assert (Hmul : float_mul two_pi (S754_finite false 4503599627370496 (-53))
                 = S754_finite false 7074237752028440 (-51))
    by (vm_compute; reflexivity).
  assert (Hstop : float64_of_float
                    (float_mul two_pi (S754_finite false 4503599627370496 (-53)))
                  = Finite (IZR 7074237752028440 * powerRZ 2 (-51)))
    by (by rewrite Hmul).
  destruct (assemble_video_list_succeeds
              (VideoSlicer.mk "f.avi" 6 "fwd" ["a"; "b"; "c"])
              (VideoSlicer.mk "b.avi" 6 "bwd" ["x"; "y"; "z"])
              (mk ["a"; "b"; "c"] ["z"; "y"; "x"] true 0 6 6 None)
              6 (S754_finite false 4503599627370496 (-53))
              (IZR 7074237752028440 * powerRZ 2 (-51))%R 4 eq_refl)
    as (video_list & s & Hrun & Hlen & _);
    [simpl; lia|done|done|simpl; lia|exact Hstop|lia|].
  exists video_list, s. split; [exact Hrun|exact Hlen].
Defined.

(** X10.  Under the same conditions and with at least two superframes asked
    for, the frame list starts with the first forward slice twice: once as
    the initial state and once more as the head returned by the first step,
    whose target is 0. *)
Theorem video_list_repeats_first_slice (f b : VideoSlicer.t) (s0 : t)
    (superframe_size : Z) (frequency : pyfloat) (stop : R)
    (n_superframes : Z) (x : Slice) (fs : list Slice) :
  init f b = Ok s0 ->
  VideoSlicer.superframe_size f <> 0 ->
  VideoSlicer.slices f = x :: fs ->
  VideoSlicer.slices b <> [] ->
  Z.of_nat (length (VideoSlicer.slices f)) <= 2 ^ 53 ->
  float64_of_float (float_mul two_pi frequency) = Finite stop ->
  2 <= n_superframes ->
  exists rest s,
    assemble_video_list superframe_size frequency n_superframes s0
      = (Ok (x :: x :: rest), s).
Proof.
  intros Hinit Hsf Ef Hb Hmax Hstop Hn.
  destruct (assemble_video_list_runs f b s0 superframe_size frequency stop
              n_superframes x fs Hinit Hsf Ef Hb Hmax Hstop)
    as (timeline & heads & s & Hgen & _ & _ & Hrun & _ & _ & _ & Hasm); [lia|].
  destruct (generate_first_zero superframe_size (Z.of_nat (len s0))
              (n_superframes - 1) frequency stop Hstop) as (rest & Hzero); [lia|].
  rewrite Hzero in Hgen. injection Hgen as <-.
  destruct (init_velocity_one f b s0 Hsf Hinit) as [Hv _].
  pose proof (init_shape f b s0 Hinit) as Hs0. rewrite Ef in Hs0.
  assert (Hbf : buffer_forward s0 <> []) by (by rewrite Hs0).
  assert (Hbb : buffer_backward s0 <> [])
    by (rewrite Hs0; simpl; by apply rev_nonempty).
  assert (Hfit : - 2 ^ 63 < 0 - index s0 <= 2 ^ 63) by (rewrite Hs0; simpl; lia).
  destruct (step_to_returns s0 0 _ Hv Hfit Hbf Hbb) as (h & Hstep & Hh).
  assert (Hdir : lagged_direction true float_one = true) by reflexivity.
  assert (Hhx : h = x).
  { replace (index s0) with 0 in Hh by (by rewrite Hs0).
    replace (forward s0) with true in Hh by (by rewrite Hs0).
    rewrite Hdir in Hh. simpl in Hh. rewrite rotate_0 in Hh.
    rewrite Hs0 in Hh. simpl in Hh. by injection Hh. }
  subst h.
  simpl in Hrun. unfold bind at 1 in Hrun. rewrite Hstep in Hrun.
  unfold bind at 1 in Hrun.
  destruct (step_each rest (stepped_to float_one 0 s0)) as [[hs|e] s1];
    [|discriminate].
  injection Hrun as <- <-.
  exists hs, s1. exact Hasm.
Qed.

Lemma video_list_repeats_first_slice_witness :
  exists rest s,
    assemble_video_list 6 (S754_finite false 4503599627370496 (-53)) 4
      (mk ["a"; "b"; "c"] ["z"; "y"; "x"] true 0 6 6 None)
    = (Ok ("a" :: "a" :: rest), s).
Proof.
  assert (Hmul : float_mul two_pi (S754_finite false 4503599627370496 (-53))
                 = S754_finite false 7074237752028440 (-51))
    by (vm_compute; reflexivity).
  assert (Hstop : float64_of_float
                    (float_mul two_pi (S754_finite false 4503599627370496 (-53)))
                  = Finite (IZR 7074237752028440 * powerRZ 2 (-51)))
    by (by rewrite Hmul).
  apply (video_list_repeats_first_slice
           (VideoSlicer.mk "f.avi" 6 "fwd" ["a"; "b"; "c"])
           (VideoSlicer.mk "b.avi" 6 "bwd" ["x"; "y"; "z"])
           _ 6 (S754_finite false 4503599627370496 (-53))
           (IZR 7074237752028440 * powerRZ 2 (-51))%R 4 "a" ["b"; "c"] eq_refl);
    [simpl; lia|reflexivity|done|simpl; lia|exact Hstop|lia].
Defined.

(** X11.  The assembly fails without touching the sequencer in two cases:
    with an empty forward slice set it raises [IndexError] on reading the
    initial state, before any timeline is generated; with a non-empty forward
    slice set and no superframe asked for ([n_superframes <= 0]) it raises
    [ValueError], the timeline being asked for a negative number of points. *)
Theorem assemble_video_list_failures (f b : VideoSlicer.t) (s0 : t)
    (superframe_size : Z) (frequency : pyfloat) (n_superframes : Z) :
  init f b = Ok s0 ->
  (VideoSlicer.slices f = [] ->
   assemble_video_list superframe_size frequency n_superframes s0
     = (Raise IndexError, s0)) /\
  (VideoSlicer.slices f <> [] -> n_superframes <= 0 ->
   assemble_video_list superframe_size frequency n_superframes s0
     = (Raise ValueError, s0)).
Proof.
  intros Hinit. pose proof (init_shape f b s0 Hinit) as Hs0. split.
  - intros Ef. rewrite Ef in Hs0. by rewrite Hs0.
  - intros Hf Hn.
    destruct (VideoSlicer.slices f) as [|x fs] eqn:Ef; [done|].
    unfold assemble_video_list, bind at 1.
    rewrite (init_state_head f b s0 x fs Ef Hinit).
    unfold bind, get.
    destruct (timeline_degenerate_counts superframe_size (Z.of_nat (len s0))
                (n_superframes - 1) frequency) as [Hneg _].
    destruct Hneg as [-> _]; [lia|]. reflexivity.
Qed.

Lemma assemble_video_list_failures_witness :
  assemble_video_list 6 (S754_finite false 4503599627370496 (-53)) 400
    (mk [] [] true 0 6 6 None)
    = (Raise IndexError, mk [] [] true 0 6 6 None).
Proof.
  apply (assemble_video_list_failures
           (VideoSlicer.mk "f.avi" 6 "fwd" []) (VideoSlicer.mk "b.avi" 6 "bwd" [])
           _ 6 (S754_finite false 4503599627370496 (-53)) 400 eq_refl).
  reflexivity.
Defined.

End Assembly.

(** ** More on the encoder configuration *)

Section EncoderConfigOutcomes.

Lemma get_is_None_write (m : gmap string pyvalue) (k v k' : string) :
  get_is_None m k = false ->
  get_is_None (<[k := PyStr v]> m) k' = get_is_None m k'.
Proof.
  intros Hk. unfold get_is_None in *.
  destruct (decide (k = k')) as [<-|Hne].
  - rewrite lookup_insert_eq. destruct (m !! k) as [[]|]; done.
  - by rewrite lookup_insert_ne.
Qed.

Lemma dom_write (m : gmap string pyvalue) (k v : string) :
  get_is_None m k = false -> dom (<[k := PyStr v]> m) = dom m.
Proof.
  intros Hk. apply dom_insert_lookup_L. unfold get_is_None in Hk.
  destruct (m !! k); [by eexists|done].
Qed.

Lemma config_pairs_flatten (pairs : list (string * string)) (tail : list string) :
  config_pairs (flatten_pairs pairs ++ tail) = pairs ++ config_pairs tail.
Proof.
  induction pairs as [|[k v] pairs IH]; [reflexivity|]. simpl. by rewrite IH.
Qed.

(** The loop over a list that starts with recognised pairs writes them and
    goes on with the rest. *)
Lemma apply_user_config_prefix (encoder : string) (n : nat)
    (pre : list (string * string)) (tail : list string) :
  forall m : gmap string pyvalue,
    Forall (fun k => get_is_None m k = false) pre.*1 ->
    apply_user_config encoder n (flatten_pairs pre ++ tail) m
      = apply_user_config encoder n tail (write_pairs pre m) /\
    (forall k, get_is_None (write_pairs pre m) k = get_is_None m k) /\
    dom (write_pairs pre m) = dom m.
Proof.
  induction pre as [|[k v] pre IH]; intros m Hrec; [done|].
  rewrite fmap_cons in Hrec. apply Forall_cons in Hrec as [Hk Hrec]. simpl in Hk.
  rewrite !write_pairs_cons. simpl. rewrite Hk.
  destruct (IH (<[k := PyStr v]> m)) as (Hrun & Hnone & Hdom).
  { eapply Forall_impl; [exact Hrec|]. intros k' Hk'. simpl in Hk'.
    by rewrite get_is_None_write. }
  split; [exact Hrun|]. split.
  - intros k'. by rewrite Hnone, get_is_None_write.
  - by rewrite Hdom, dom_write.
Qed.

(** Every list of items is a run of recognised pairs followed by nothing, by
    one dangling key, or by a pair whose key is not recognised. *)
Lemma config_shape (m : gmap string pyvalue) (user_specified_config : list string) :
  exists pre,
    Forall (fun k => get_is_None m k = false) pre.*1 /\
    (user_specified_config = flatten_pairs pre \/
     (exists key, user_specified_config = flatten_pairs pre ++ [key]) \/
     (exists key value rest,
        user_specified_config = flatten_pairs pre ++ key :: value :: rest /\
        get_is_None m key = true)).
Proof.
  induction user_specified_config as [|x|key value rest IH] using list_pair_ind.
  - exists []. split; [constructor|]. by left.
  - exists []. split; [constructor|]. right; left. by exists x.
  - destruct (get_is_None m key) eqn:Hk.
    + exists []. split; [constructor|]. right; right. by exists key, value, rest.
    + destruct IH as (pre & Hrec & Hshape).
      exists ((key, value) :: pre). split; [by constructor|].
      destruct Hshape as [->|[(k & ->)|(k & v & r & -> & Hnone)]].
      * by left.
      * right; left. by exists k.
      * right; right. by exists k, v, r.
Qed.

(** X12.  A call returns exactly when the encoder is in the table, the list
    has an even number of items and every key in it is one that the defaults
    of the encoder hold with a value other than [None]. *)
Theorem construct_encoder_config_returns_iff
    (options : EncoderConfigOptions) (encoder : string)
    (user_specified_config : list string) :
  (exists r options',
     construct_encoder_config encoder user_specified_config options
       = (Ok r, options')) <->
  (exists defaults,
     options !! encoder = Some defaults /\
     Nat.Even (length user_specified_config) /\
     Forall (fun k => get_is_None defaults k = false)
            (config_pairs user_specified_config).*1).
Proof.
  unfold construct_encoder_config.
  destruct (options !! encoder) as [m|] eqn:Hm.
  2:{ split; [intros (r & o & H); discriminate|intros (d & H & _); discriminate]. }
  destruct (config_shape m user_specified_config) as (pre & Hrec & Hshape).
  destruct (apply_user_config_prefix encoder (length user_specified_config)
              pre [] m Hrec) as (Hnil & _).
  destruct Hshape as [->|[(key & ->)|(key & value & rest & -> & Hnone)]].
  - rewrite app_nil_r in Hnil. rewrite Hnil. simpl. split.
    + intros _. exists m. split; [reflexivity|]. split.
      * clear. induction pre as [|[k v] pre IH]; [by exists 0%nat|].
        simpl. destruct IH as [h Hh]. exists (S h). lia.
      * pose proof (config_pairs_flatten pre []) as Hp.
        rewrite app_nil_r in Hp. simpl in Hp. rewrite app_nil_r in Hp.
        by rewrite Hp.
    + intros _. by eexists _, _.
  - destruct (apply_user_config_prefix encoder
                (length (flatten_pairs pre ++ [key])) pre [key] m Hrec)
      as (-> & _). simpl. split.
    + intros (r & o & H). discriminate.
    + intros (d & _ & [h Hh] & _). exfalso.
      rewrite length_app in Hh. simpl in Hh.
      assert (Hev : exists h', length (flatten_pairs pre) = (2 * h')%nat).
      { clear. induction pre as [|[k v] pre [h' IH]]; [by exists 0%nat|].
        exists (S h'). simpl. lia. }
      destruct Hev as [h' Hh']. lia.
  - destruct (apply_user_config_prefix encoder
                (length (flatten_pairs pre ++ key :: value :: rest))
                pre (key :: value :: rest) m Hrec) as (-> & Hsame & _).
    simpl. rewrite Hsame, Hnone. split.
    + intros (r & o & H). discriminate.
    + intros (d & [= <-] & _ & Hall). exfalso.
      rewrite config_pairs_flatten in Hall. simpl in Hall.
      rewrite fmap_app, fmap_cons in Hall.
      apply Forall_app in Hall as [_ Hall].
      apply Forall_cons in Hall as [Hk _]. simpl in Hk. congruence.
Qed.

(** X13.  When the items before it are pairs with recognised keys, a
    dangling last key makes the call raise [MalformedConfigurationError] with
    the length of the list, whether or not that key is recognised, and a pair
    whose key is absent from the defaults or held with [None] makes it raise
    [UnrecognizedEncoderConfigError] for that key.  In both cases the pairs
    before the offending item have been written into the shared table. *)
Theorem construct_encoder_config_failures
    (options : EncoderConfigOptions) (encoder : string)
    (defaults : gmap string pyvalue) (pre : list (string * string))
    (key : string) :
  options !! encoder = Some defaults ->
  Forall (fun k => get_is_None defaults k = false) pre.*1 ->
  construct_encoder_config encoder (flatten_pairs pre ++ [key]) options
    = (Raise (MalformedConfigurationError (length (flatten_pairs pre ++ [key]))),
       <[encoder := write_pairs pre defaults]> options) /\
  (get_is_None defaults key = true ->
   forall value rest,
     construct_encoder_config encoder
       (flatten_pairs pre ++ key :: value :: rest) options
     = (Raise (UnrecognizedEncoderConfigError encoder key),
        <[encoder := write_pairs pre defaults]> options)).
Proof.
  intros Hm Hrec. unfold construct_encoder_config. rewrite Hm. split.
  - destruct (apply_user_config_prefix encoder
                (length (flatten_pairs pre ++ [key])) pre [key] defaults Hrec)
      as (-> & _). reflexivity.
  - intros Hnone value rest.
    destruct (apply_user_config_prefix encoder
                (length (flatten_pairs pre ++ key :: value :: rest))
                pre (key :: value :: rest) defaults Hrec) as (-> & Hsame & _).
    simpl. by rewrite Hsame, Hnone.
Qed.

Lemma construct_encoder_config_failures_witness :
  construct_encoder_config "libx264" ["crf"; "18"; "preset"]
    {[ "libx264" := {[ "crf" := PyInt 23 ]} ]}
  = (Raise (MalformedConfigurationError 3),
     <[ "libx264" := {[ "crf" := PyStr "18" ]} ]>
       {[ "libx264" := {[ "crf" := PyInt 23 ]} ]}).
Proof.
  destruct (construct_encoder_config_failures
              {[ "libx264" := {[ "crf" := PyInt 23 ]} ]} "libx264"
              {[ "crf" := PyInt 23 ]} [("crf", "18")] "preset")
    as [H _].
  - reflexivity.
  - repeat constructor.
  - etrans; [exact H|]. vm_compute. reflexivity.
Defined.

(** What the loop leaves in the dictionary is always a run of recognised
    pairs written into what it found. *)
Lemma apply_user_config_written (encoder : string) (n : nat)
    (user_specified_config : list string) (m : gmap string pyvalue) :
  exists pre,
    Forall (fun k => get_is_None m k = false) pre.*1 /\
    snd (apply_user_config encoder n user_specified_config m) = write_pairs pre m.
Proof.
  destruct (config_shape m user_specified_config) as (pre & Hrec & Hshape).
  exists pre. split; [exact Hrec|].
  destruct Hshape as [->|[(key & ->)|(key & value & rest & -> & Hnone)]].
  - destruct (apply_user_config_prefix encoder n pre [] m Hrec) as (H & _).
    rewrite app_nil_r in H. by rewrite H.
  - destruct (apply_user_config_prefix encoder n pre [key] m Hrec) as (-> & _).
    reflexivity.
  - destruct (apply_user_config_prefix encoder n pre (key :: value :: rest) m Hrec)
      as (-> & Hsame & _).
    simpl. by rewrite Hsame, Hnone.
Qed.

(** X14.  Whether it returns or raises, a call leaves the dictionaries of
    the other encoders as they were and adds no encoder to the table; in the
    dictionary of its own encoder it adds and removes no key, and a key is
    recognised afterwards exactly if it was before. *)
Theorem construct_encoder_config_frame
    (options : EncoderConfigOptions) (encoder : string)
    (user_specified_config : list string) :
  (forall other, other <> encoder ->
     snd (construct_encoder_config encoder user_specified_config options) !! other
     = options !! other) /\
  dom (snd (construct_encoder_config encoder user_specified_config options))
    = dom options /\
  (options !! encoder = None ->
   construct_encoder_config encoder user_specified_config options
     = (Raise (EncoderSelectionError encoder), options)) /\
  (forall defaults, options !! encoder = Some defaults ->
     exists current,
       snd (construct_encoder_config encoder user_specified_config options)
         !! encoder = Some current /\
       dom current = dom defaults /\
       forall k, get_is_None current k = get_is_None defaults k).
Proof.
  unfold construct_encoder_config.
  destruct (options !! encoder) as [m|] eqn:Hm.
  2:{ split; [done|]. split; [done|]. split; [done|]. intros d [=]. }
  destruct (apply_user_config_written encoder (length user_specified_config)
              user_specified_config m) as (pre & Hrec & Hwritten).
  destruct (apply_user_config_prefix encoder 0 pre [] m Hrec) as (_ & Hsame & Hdom).
  assert (Hsnd :
    snd (match apply_user_config encoder (length user_specified_config)
                 user_specified_config m with
         | (Ok _, written) =>
             (Ok (EncoderConfigRef encoder), <[encoder := written]> options)
         | (Raise e, written) => (Raise e, <[encoder := written]> options)
         end) = <[encoder := write_pairs pre m]> options).
  { destruct (apply_user_config _ _ _ m) as [[[]|e] written];
      simpl in Hwritten; by subst. }
  rewrite Hsnd.
  split; [intros other Hne; by rewrite lookup_insert_ne|].
  split; [apply dom_insert_lookup_L; by eexists|].
  split; [intros [=]|].
  intros d [= <-]. exists (write_pairs pre m).
  split; [apply lookup_insert_eq|]. by split.
Qed.

Lemma last_occurrence (pairs : list (string * string)) (k : string) :
  k ∈ pairs.*1 ->
  exists pre v post, pairs = pre ++ (k, v) :: post /\ k ∉ post.*1.
Proof.
  induction pairs as [|[k' v'] pairs IH]; intros Hk.
  - by apply elem_of_nil in Hk.
  - destruct (decide (k ∈ pairs.*1)) as [Hin|Hnin].
    + destruct (IH Hin) as (pre & v & post & -> & Hpost).
      by exists ((k', v') :: pre), v, post.
    + rewrite fmap_cons in Hk. apply elem_of_cons in Hk as [->|Hk]; [|done].
      by exists [], v', pairs.
Qed.

Lemma write_pairs_idem (pairs : list (string * string))
    (m : gmap string pyvalue) :
  write_pairs pairs (write_pairs pairs m) = write_pairs pairs m.
Proof.
  apply map_eq. intros k.
  destruct (decide (k ∈ pairs.*1)) as [Hin|Hnin].
  - destruct (last_occurrence pairs k Hin) as (pre & v & post & Heq & Hpost).
    rewrite Heq at 1 3. by rewrite !write_pairs_last.
  - by rewrite write_pairs_other.
Qed.

(** X15.  A call that returns can be repeated: the same call on the table it
    left returns the same reference and leaves the table as it is. *)
Theorem construct_encoder_config_idempotent
    (options options' : EncoderConfigOptions) (encoder : string)
    (user_specified_config : list string) (r : dict_ref) :
  construct_encoder_config encoder user_specified_config options = (Ok r, options') ->
  construct_encoder_config encoder user_specified_config options' = (Ok r, options').
Proof.
  unfold construct_encoder_config.
  destruct (options !! encoder) as [m|] eqn:Hm; [|discriminate].
  destruct (apply_user_config _ _ _ m) as [[[]|e] written] eqn:Hrun;
    [|discriminate].
  intros [= <- <-]. rewrite lookup_insert_eq.
  pose proof (apply_user_config_ok _ _ _ _ _ Hrun) as ->.
  set (pairs := config_pairs user_specified_config).
  destruct (config_shape m user_specified_config) as (pre & Hrec & Hshape).
  destruct (apply_user_config_prefix encoder (length user_specified_config)
              pre [] m Hrec) as (_ & Hsame & _).
  destruct Hshape as [Heq|[(key & Heq)|(key & value & rest & Heq & Hnone)]].
  - assert (Hpairs : pairs = pre).
    { unfold pairs. rewrite Heq.
      pose proof (config_pairs_flatten pre []) as Hp.
      rewrite app_nil_r in Hp. simpl in Hp. by rewrite app_nil_r in Hp. }
    rewrite Hpairs.
    assert (Hrec' : Forall (fun k => get_is_None (write_pairs pre m) k = false)
                           pre.*1).
    { eapply Forall_impl; [exact Hrec|]. intros k Hk. simpl in Hk.
      by rewrite Hsame. }
    destruct (apply_user_config_prefix encoder (length user_specified_config)
                pre [] (write_pairs pre m) Hrec') as (Hrun' & _).
    rewrite app_nil_r in Hrun'. rewrite Heq at 2. rewrite Hrun'. simpl.
    by rewrite write_pairs_idem, insert_insert_eq.
  - exfalso. rewrite Heq in Hrun.
    rewrite (proj1 (apply_user_config_prefix encoder _ pre [key] m Hrec)) in Hrun.
    discriminate.
  - exfalso. rewrite Heq in Hrun.
    rewrite (proj1 (apply_user_config_prefix encoder _ pre
                      (key :: value :: rest) m Hrec)) in Hrun.
    simpl in Hrun. rewrite Hsame, Hnone in Hrun. discriminate.
Qed.

Lemma construct_encoder_config_idempotent_witness :
  construct_encoder_config "libx264" ["crf"; "18"]
    (snd (construct_encoder_config "libx264" ["crf"; "18"]
            {[ "libx264" := {[ "crf" := PyInt 23 ]} ]}))
  = (Ok (EncoderConfigRef "libx264"),
     snd (construct_encoder_config "libx264" ["crf"; "18"]
            {[ "libx264" := {[ "crf" := PyInt 23 ]} ]})).
Proof.
  apply (construct_encoder_config_idempotent
           {[ "libx264" := {[ "crf" := PyInt 23 ]} ]}).
  vm_compute. reflexivity.
Defined.

End EncoderConfigOutcomes.

(** ** More on the persistence cache *)

Section CacheOutcomes.
Import CompressureSystem.
Variable E : Collaborators.


End CacheOutcomes.

